(** * Apple Pay request building and shipping-contact validation

    A shallow embedding of [src/payment-flows/applepay/utils.js] and the
    properties of its functions.

    Conventions of the embedding.
    - A JavaScript string is a [string]; the case conversions act on the
      ASCII letters and leave every other character as it is.
    - An optional property, an omitted argument or a value of a Flow maybe
      type [?T] is an [option]: [None] is [undefined] (and, for a maybe type,
      also [null], which the code treats alike through [?.], [||] and [!]).
    - A number is an IEEE 754 binary64 value, a [spec_float] of the standard
      library with precision 53 and maximal exponent 1024.
    - Code that can throw runs in the [completion] monad. *)

From Stdlib Require Import ZArith String Ascii List Bool Lia DecimalString DecimalN.
From Stdlib Require Import Sorting.Permutation Sorting.Sorted.
From Stdlib Require Import Floats.SpecFloat.
From stdpp Require Import base option list gmap strings fin_maps.

Import ListNotations.
Local Open Scope string_scope.
Local Open Scope list_scope.
Set Warnings "-register-all".

(* ===================================================================== *)
(** * Definitions *)
(* ===================================================================== *)

(** ** Strings *)

Definition is_upper (c : ascii) : bool :=
  let n := N_of_ascii c in ((65 <=? n) && (n <=? 90))%N.

Definition is_lower (c : ascii) : bool :=
  let n := N_of_ascii c in ((97 <=? n) && (n <=? 122))%N.

Definition lower_char (c : ascii) : ascii :=
  if is_upper c then ascii_of_N (N_of_ascii c + 32) else c.

Definition upper_char (c : ascii) : ascii :=
  if is_lower c then ascii_of_N (N_of_ascii c - 32) else c.

Fixpoint string_map (f : ascii -> ascii) (s : string) : string :=
  match s with
  | EmptyString => EmptyString
  | String c s' => String (f c) (string_map f s')
  end.

(** [s.toLowerCase()] and [s.toUpperCase()]. *)
Definition toLowerCase (s : string) : string := string_map lower_char s.
Definition toUpperCase (s : string) : string := string_map upper_char s.

(** [s.replace(/c/g, '')]: every occurrence of the character [c] removed. *)
Fixpoint remove_all (c : ascii) (s : string) : string :=
  match s with
  | EmptyString => EmptyString
  | String d s' =>
      if Ascii.eqb d c then remove_all c s' else String d (remove_all c s')
  end.

Fixpoint string_mem (c : ascii) (s : string) : bool :=
  match s with
  | EmptyString => false
  | String d s' => Ascii.eqb d c || string_mem c s'
  end.

(** ** Truthiness and defaults *)

(** [ToBoolean] of an optional string: [undefined], [null] and the empty
    string are falsy. *)
Definition truthy (v : option string) : bool :=
  match v with
  | Some (String _ _) => true
  | _ => false
  end.

(** [ToBoolean] of an optional boolean. *)
Definition truthy_bool (v : option bool) : bool :=
  match v with
  | Some b => b
  | None => false
  end.

(** [v || d] with a string literal [d] on the right. *)
Definition or_default (v : option string) (d : string) : string :=
  match v with
  | Some (String c s) => String c s
  | _ => d
  end.

(** [xs.includes(x)] on an array of strings. *)
Definition includes (xs : list string) (x : string) : bool :=
  bool_decide (x ∈ xs).

(** [Object.keys(o)] of an object used as a table. *)
Definition Object_keys {V : Type} (o : gmap string V) : list string :=
  (map_to_list o).*1.

(** ** Completions *)

Inductive Error := TypeError | SyntaxError.

Inductive completion (A : Type) : Type :=
| Normal (a : A)
| Throw (e : Error).

Arguments Normal {A} a.
Arguments Throw {A} e.

#[global] Instance completion_ret : MRet completion := @Normal.

#[global] Instance completion_bind : MBind completion :=
  fun A B (k : A -> completion B) (c : completion A) =>
    match c with
    | Normal a => k a
    | Throw e => Throw e
    end.

(** Reading the properties of a value that may be [undefined]: the
    destructuring pattern [{ ... } = o] throws a [TypeError] when [o] is
    [undefined] or [null]. *)
Definition destructure {A : Type} (o : option A) : completion A :=
  match o with
  | Some a => Normal a
  | None => Throw TypeError
  end.

(** [try { body; return true } catch { return false }]. *)
Definition try_true_catch_false {A : Type} (body : completion A)
  : completion bool :=
  match body with
  | Normal _ => Normal true
  | Throw _ => Normal false
  end.

(** ** Numbers: [parseFloat] and [Number.prototype.toFixed] *)

Definition prec : Z := 53.
Definition emax : Z := 1024.

(** The binary64 value nearest to [m * 10^e] (ties to even), with the sign
    [neg]; the quotient is rounded once, from its exact location. *)
Definition decimal_to_double (neg : bool) (m : Z) (e : Z) : spec_float :=
  if (m =? 0)%Z then S754_zero neg
  else
    let n := (m * 10 ^ Z.max e 0)%Z in
    let d := (10 ^ Z.max (- e) 0)%Z in
    let '(q, e', l) := SFdiv_core_binary prec emax n 0 d 0 in
    binary_round_aux prec emax neg q e' l.

Definition is_digit (c : ascii) : bool :=
  let n := N_of_ascii c in ((48 <=? n) && (n <=? 57))%N.

Definition digit_value (c : ascii) : Z := Z.of_N (N_of_ascii c) - 48.

(** White space and line terminators (the ASCII ones). *)
Definition is_whitespace (c : ascii) : bool :=
  let n := N_of_ascii c in
  ((n =? 9) || (n =? 10) || (n =? 11) || (n =? 12) || (n =? 13) || (n =? 32))%N.

Fixpoint trim_start (s : string) : string :=
  match s with
  | String c s' => if is_whitespace c then trim_start s' else s
  | EmptyString => EmptyString
  end.

(** The longest prefix of decimal digits: its value as an integer (after the
    accumulator [acc]), how many digits were read, and the rest. *)
Fixpoint read_digits (acc : Z) (count : Z) (s : string) : Z * Z * string :=
  match s with
  | String c s' =>
      if is_digit c
      then read_digits (10 * acc + digit_value c) (count + 1) s'
      else (acc, count, s)
  | EmptyString => (acc, count, s)
  end.

(** The optional [ExponentPart] at the head of [s]: an [e] or [E], an
    optional sign and at least one digit; [0] when there is none. *)
Definition read_exponent (s : string) : Z :=
  match s with
  | String c s1 =>
      if Ascii.eqb c "e" || Ascii.eqb c "E" then
        let '(neg, s2) :=
          match s1 with
          | String "+" s2 => (false, s2)
          | String "-" s2 => (true, s2)
          | _ => (false, s1)
          end in
        let '(x, k, _) := read_digits 0 0 s2 in
        if (k =? 0)%Z then 0%Z else if neg then (- x)%Z else x
      else 0%Z
  | EmptyString => 0%Z
  end.

(** The numeric value of the longest prefix of [s] that is a
    [StrUnsignedDecimalLiteral], with the sign [neg]; [NaN] when no prefix
    is one. *)
Definition read_unsigned (neg : bool) (s : string) : spec_float :=
  if String.prefix "Infinity" s then S754_infinity neg
  else
    let '(i, ki, s1) := read_digits 0 0 s in
    match s1 with
    | String "." s2 =>
        let '(m, kf, s3) := read_digits i 0 s2 in
        if ((ki =? 0) && (kf =? 0))%Z then S754_nan
        else decimal_to_double neg m (read_exponent s3 - kf)
    | _ =>
        if (ki =? 0)%Z then S754_nan
        else decimal_to_double neg i (read_exponent s1)
    end.

(** [parseFloat(s)]. *)
Definition parseFloat (s : string) : spec_float :=
  match trim_start s with
  | String "+" s' => read_unsigned false s'
  | String "-" s' => read_unsigned true s'
  | s' => read_unsigned false s'
  end.

(** What [toFixed] returns: a string that is spelled out, or, for a finite
    number of magnitude [10^21] or more, the result of [Number::toString],
    which is in exponent notation (as in [1e+21]) and is kept symbolic. *)
Inductive NumberString :=
| Spelled (s : string)
| ExponentForm (x : spec_float).

(** The decimal digits of a natural number, ["0"] for zero. *)
Definition decimal_digits (n : Z) : string :=
  DecimalString.NilEmpty.string_of_uint (N.to_uint (Z.to_N n)).

Fixpoint zeros (k : nat) : string :=
  match k with
  | O => EmptyString
  | S k' => String "0" (zeros k')
  end.

(** The digits [m] of [toFixed], padded on the left with zeros to [f + 1]
    characters, with a point before the last [f]. *)
Definition place_point (f : nat) (m : string) : string :=
  let k := String.length m in
  let m := if (k <=? f)%nat then zeros (f + 1 - k) +:+ m else m in
  let k := String.length m in
  match f with
  | O => m
  | _ => substring 0 (k - f) m +:+ "." +:+ substring (k - f) f m
  end.

Definition fixed_digits (f : nat) (n : Z) : string :=
  place_point f (decimal_digits n).

(** The integer [n] for which [n / 10^f - m * 2^e] is as close to zero as
    possible, the larger one when there are two. *)
Definition nearest_scaled (f : nat) (m : positive) (e : Z) : Z :=
  let num := (Z.pos m * 10 ^ Z.of_nat f * 2 ^ Z.max e 0)%Z in
  let den := (2 ^ Z.max (- e) 0)%Z in
  ((2 * num + den) / (2 * den))%Z.

(** [m * 2^e >= 10^21]. *)
Definition at_least_1e21 (m : positive) (e : Z) : bool :=
  (10 ^ 21 * 2 ^ Z.max (- e) 0 <=? Z.pos m * 2 ^ Z.max e 0)%Z.

(** [x.toFixed(f)] for [0 <= f <= 100]. *)
Definition toFixed (f : nat) (x : spec_float) : NumberString :=
  match x with
  | S754_nan => Spelled "NaN"
  | S754_infinity false => Spelled "Infinity"
  | S754_infinity true => Spelled "-Infinity"
  | S754_zero _ => Spelled (fixed_digits f 0)
  | S754_finite neg m e =>
      if at_least_1e21 m e then ExponentForm x
      else Spelled ((if neg then "-" else "") +:+ fixed_digits f (nearest_scaled f m e))
  end.

(** [r === lit] for a literal [lit] in fixed notation, which no string in
    exponent notation equals. *)
Definition strict_equals (r : NumberString) (lit : string) : bool :=
  match r with
  | Spelled s => String.eqb s lit
  | ExponentForm _ => false
  end.

(** ** [isZeroAmount] *)

Definition isZeroAmount (value : string) : bool :=
  strict_equals (toFixed 2 (parseFloat value)) "0.00".

(** ** The records of [../types] and [../../api]

    Modelled from the spec: the type declarations of [../types] and
    [../../api] are not among the sources. The records follow the data model
    of the specification and list the properties that the functions read and
    write, each one optional where the code tests it, defaults it or reads
    it through [?.]. *)

Module Amount.
Record t := mk {
  currencyCode : option string;
  currencyValue : option string
}.
End Amount.

Module ShippingAddress.
Record t := mk {
  firstName : option string;
  lastName : option string;
  line1 : option string;
  line2 : option string;
  city : option string;
  state : option string;
  postalCode : option string;
  country : option string
}.
End ShippingAddress.

Module ShippingMethod.
Record t := mk {
  id : option string;
  amount : option Amount.t;
  label : option string;
  type : option string;
  selected : option bool
}.
End ShippingMethod.

Module ApplePayPaymentContact.
Record t := mk {
  givenName : option string;
  familyName : option string;
  addressLines : option (list (option string));
  locality : option string;
  administrativeArea : option string;
  postalCode : option string;
  country : option string;
  countryCode : option string
}.
(** The object literal [{}]. *)
Definition empty : t := mk None None None None None None None None.
End ApplePayPaymentContact.

Module ApplePayShippingMethod.
Record t := mk {
  amount : string;
  detail : option string;
  identifier : string;
  label : option string
}.
End ApplePayShippingMethod.

Module LineItem.
Record t := mk {
  label : string;
  amount : option string;
  type : option string
}.
End LineItem.

Module ApplePayPaymentRequest.
Record t := mk {
  countryCode : string;
  currencyCode : option string;
  merchantCapabilities : list string;
  supportedNetworks : list string;
  requiredBillingContactFields : list string;
  requiredShippingContactFields : list string;
  shippingContact : ApplePayPaymentContact.t;
  shippingMethods : list ApplePayShippingMethod.t;
  lineItems : list LineItem.t;
  total : LineItem.t
}.
(** [result.lineItems.push(item)]. *)
Definition push_lineItem (result : t) (item : LineItem.t) : t :=
  mk (countryCode result) (currencyCode result) (merchantCapabilities result)
     (supportedNetworks result) (requiredBillingContactFields result)
     (requiredShippingContactFields result) (shippingContact result)
     (shippingMethods result) (lineItems result ++ [item]) (total result).
End ApplePayPaymentRequest.

(** The order as it arrives at run time: every nested object may be missing,
    and reading a property of a missing object throws. *)
Module Amounts.
Record t := mk {
  shippingAndHandling : option Amount.t;
  tax : option Amount.t;
  subtotal : option Amount.t;
  total : option Amount.t
}.
End Amounts.

Module Cart.
Record t := mk {
  amounts : option Amounts.t;
  shippingAddress : option ShippingAddress.t;
  shippingMethods : option (list ShippingMethod.t)
}.
End Cart.

Module Flags.
Record t := mk {
  isShippingAddressRequired : option bool
}.
End Flags.

Module CheckoutSession.
Record t := mk {
  flags : option Flags.t;
  allowedCardIssuers : option (list string);
  cart : option Cart.t
}.
End CheckoutSession.

Module DetailedOrderInfo.
Record t := mk {
  checkoutSession : option CheckoutSession.t
}.
(** Modelled from the spec: the declared type [DetailedOrderInfo], which is
    not among the sources. An order holds its flags and its cart amounts
    (subtotal, tax, shipping and total): the session, its flags, its cart,
    the cart's amounts and the four amounts are objects. *)
Definition declared (order : t) : Prop :=
  exists session flags cart amounts shipping tax subtotal total,
    checkoutSession order = Some session /\
    CheckoutSession.flags session = Some flags /\
    CheckoutSession.cart session = Some cart /\
    Cart.amounts cart = Some amounts /\
    Amounts.shippingAndHandling amounts = Some shipping /\
    Amounts.tax amounts = Some tax /\
    Amounts.subtotal amounts = Some subtotal /\
    Amounts.total amounts = Some total.
End DetailedOrderInfo.

Module ApplePayError.
Record t := mk {
  code : string;
  contactField : string;
  message : string
}.
End ApplePayError.

Module Shipping_Address.
Record t := mk {
  city : option string;
  state : option string;
  country_code : option string;
  postal_code : option string
}.
End Shipping_Address.

Module ShippingContactValidation.
Record t := mk {
  errors : list ApplePayError.t;
  shipping_address : Shipping_Address.t
}.
End ShippingContactValidation.

(** ** [getSupportedNetworksFromIssuers] *)

Definition validNetworks : gmap string string :=
  <["discover" := "discover"]>
  (<["visa" := "visa"]>
  (<["mastercard" := "masterCard"]>
  (<["amex" := "amex"]>
  (<["cb_nationale" := "cartesBancaires"]>
  (<["maestro" := "maestro"]>
  (<["jcb" := "jcb"]> ∅)))))).

(** The inner function [validateIssuers], with the array [validIssuers] that
    it pushes to passed in and out. *)
Definition validateIssuers (validIssuers : list string) (issuer : string)
  : list string :=
  let network := remove_all "_" (toLowerCase issuer) in
  if includes (Object_keys validNetworks) network
  then validIssuers ++ option_list (validNetworks !! network)
  else validIssuers.

Definition getSupportedNetworksFromIssuers (issuers : option (list string))
  : list string :=
  let issuers := default [] issuers in
  let validIssuers := [] in
  fold_left validateIssuers issuers validIssuers.

(** ** [getShippingContactFromAddress] *)

Definition getShippingContactFromAddress
  (shippingAddress : option ShippingAddress.t) : ApplePayPaymentContact.t :=
  match shippingAddress with
  | None =>
      {| ApplePayPaymentContact.givenName := Some "";
         ApplePayPaymentContact.familyName := Some "";
         ApplePayPaymentContact.addressLines := Some [];
         ApplePayPaymentContact.locality := Some "";
         ApplePayPaymentContact.administrativeArea := Some "";
         ApplePayPaymentContact.postalCode := Some "";
         ApplePayPaymentContact.country := Some "";
         ApplePayPaymentContact.countryCode := Some "" |}
  | Some (ShippingAddress.mk firstName lastName line1 line2 city state
            postalCode country) =>
      {| ApplePayPaymentContact.givenName := firstName;
         ApplePayPaymentContact.familyName := lastName;
         ApplePayPaymentContact.addressLines := Some [line1; line2];
         ApplePayPaymentContact.locality := city;
         ApplePayPaymentContact.administrativeArea := state;
         ApplePayPaymentContact.postalCode := postalCode;
         ApplePayPaymentContact.country := country;
         ApplePayPaymentContact.countryCode := country |}
  end.

(** ** [getMerchantCapabilities] *)

Definition getMerchantCapabilities (supportedNetworks : option (list string))
  : list string :=
  let supportedNetworks := default [] supportedNetworks in
  let merchantCapabilities := ["supports3DS"; "supportsCredit"; "supportsDebit"] in
  if includes supportedNetworks "chinaUnionPay"
  then merchantCapabilities ++ ["supportsEMV"]
  else merchantCapabilities.

(** ** [getApplePayShippingMethods] and [createApplePayRequest]

    [Array.prototype.sort] belongs to the engine: the functions take it as
    [Array_sort], called with the comparison function and the array. *)

Section Engine.

Variable Array_sort : forall A : Type, (A -> A -> Z) -> list A -> list A.

(** The comparison function [method => method.selected ? -1 : 0]; it never
    looks at its second argument. *)
Definition selected_first (method _other : ShippingMethod.t) : Z :=
  if truthy_bool (ShippingMethod.selected method) then (-1)%Z else 0%Z.

Definition to_ApplePayShippingMethod (method : ShippingMethod.t)
  : ApplePayShippingMethod.t :=
  {| ApplePayShippingMethod.amount :=
       or_default (ShippingMethod.amount method ≫= Amount.currencyValue) "0.00";
     ApplePayShippingMethod.detail := ShippingMethod.type method;
     ApplePayShippingMethod.identifier :=
       or_default (ShippingMethod.id method) "";
     ApplePayShippingMethod.label := ShippingMethod.label method |}.

Definition getApplePayShippingMethods
  (shippingMethods : option (list ShippingMethod.t))
  : list ApplePayShippingMethod.t :=
  let shippingMethods := default [] shippingMethods in
  map to_ApplePayShippingMethod
      (Array_sort ShippingMethod.t selected_first shippingMethods).

(** [value && !isZeroAmount(value)]. *)
Definition present_and_nonzero (value : option string) : bool :=
  match value with
  | Some v => truthy value && negb (isZeroAmount v)
  | None => false
  end.

Definition createApplePayRequest (countryCode : string)
  (order : DetailedOrderInfo.t) : completion ApplePayPaymentRequest.t :=
  session ← destructure (DetailedOrderInfo.checkoutSession order);
  flags ← destructure (CheckoutSession.flags session);
  let isShippingAddressRequired := Flags.isShippingAddressRequired flags in
  let allowedCardIssuers := CheckoutSession.allowedCardIssuers session in
  cart ← destructure (CheckoutSession.cart session);
  amounts ← destructure (Cart.amounts cart);
  shippingAndHandling ← destructure (Amounts.shippingAndHandling amounts);
  let shippingValue := Amount.currencyValue shippingAndHandling in
  tax ← destructure (Amounts.tax amounts);
  let taxValue := Amount.currencyValue tax in
  subtotal ← destructure (Amounts.subtotal amounts);
  let subtotalValue := Amount.currencyValue subtotal in
  total ← destructure (Amounts.total amounts);
  let currencyCode := Amount.currencyCode total in
  let totalValue := Amount.currencyValue total in
  let shippingAddress := Cart.shippingAddress cart in
  let shippingMethods := Cart.shippingMethods cart in

  let supportedNetworks := getSupportedNetworksFromIssuers allowedCardIssuers in
  let shippingContact := getShippingContactFromAddress shippingAddress in
  let applePayShippingMethods := getApplePayShippingMethods shippingMethods in
  (* an array is truthy: [applePayShippingMethods || []] is the array *)
  let merchantCapabilities := getMerchantCapabilities (Some supportedNetworks) in

  let selectedShippingMethod :=
    List.find (fun method => truthy_bool (ShippingMethod.selected method))
              (default [] shippingMethods) in

  let result :=
    {| ApplePayPaymentRequest.countryCode := countryCode;
       ApplePayPaymentRequest.currencyCode := currencyCode;
       ApplePayPaymentRequest.merchantCapabilities := merchantCapabilities;
       ApplePayPaymentRequest.supportedNetworks := supportedNetworks;
       ApplePayPaymentRequest.requiredBillingContactFields :=
         ["postalAddress"; "name"; "phone"];
       ApplePayPaymentRequest.requiredShippingContactFields :=
         if truthy_bool isShippingAddressRequired
         then ["postalAddress"; "name"; "phone"; "email"]
         else ["name"; "phone"; "email"];
       ApplePayPaymentRequest.shippingContact :=
         if truthy (ApplePayPaymentContact.givenName shippingContact)
         then shippingContact
         else ApplePayPaymentContact.empty;
       ApplePayPaymentRequest.shippingMethods := applePayShippingMethods;
       ApplePayPaymentRequest.lineItems := [];
       ApplePayPaymentRequest.total :=
         {| LineItem.label := "Total";
            LineItem.amount := totalValue;
            LineItem.type := Some "final" |} |} in

  let result :=
    if present_and_nonzero subtotalValue
    then ApplePayPaymentRequest.push_lineItem result
           {| LineItem.label := "Subtotal";
              LineItem.amount := subtotalValue;
              LineItem.type := None |}
    else result in

  let result :=
    if present_and_nonzero taxValue
    then ApplePayPaymentRequest.push_lineItem result
           {| LineItem.label := "Sales Tax";
              LineItem.amount := taxValue;
              LineItem.type := None |}
    else result in

  let isPickup :=
    bool_decide (selectedShippingMethod ≫= ShippingMethod.type = Some "PICKUP") in

  let result :=
    if match shippingValue with
       | Some v => truthy shippingValue && (negb (isZeroAmount v) || isPickup)
       | None => false
       end
    then ApplePayPaymentRequest.push_lineItem result
           {| LineItem.label := "Shipping";
              LineItem.amount := shippingValue;
              LineItem.type := None |}
    else result in

  mret result.

End Engine.

(** ** [isJSON]

    The argument is any JavaScript value, given as a tree (so without
    cycles). A JSON text stands for the document it spells: [JSON.stringify]
    yields a document, no text when the value has no JSON form, or throws;
    [JSON.parse] reads a document back and throws on anything else. *)

Inductive JSValue :=
| JUndefined
| JNull
| JBoolean (b : bool)
| JNumber (x : spec_float)
| JBigInt (n : Z)
| JString (s : string)
| JSymbol
| JFunction
| JArray (elements : list JSValue)
| JObject (properties : list (string * JSValue)).

Inductive JSON :=
| JSON_null
| JSON_boolean (b : bool)
| JSON_number (x : spec_float)
| JSON_string (s : string)
| JSON_array (elements : list JSON)
| JSON_object (members : list (string * JSON)).

Definition is_finite (x : spec_float) : bool :=
  match x with
  | S754_zero _ | S754_finite _ _ _ => true
  | S754_infinity _ | S754_nan => false
  end.

(** [SerializeJSONProperty]: [None] is the result [undefined]. *)
Fixpoint SerializeJSONProperty (value : JSValue) : completion (option JSON) :=
  match value with
  | JUndefined | JSymbol | JFunction => Normal None
  | JNull => Normal (Some JSON_null)
  | JBoolean b => Normal (Some (JSON_boolean b))
  | JNumber x => Normal (Some (if is_finite x then JSON_number x else JSON_null))
  | JBigInt _ => Throw TypeError
  | JString s => Normal (Some (JSON_string s))
  | JArray elements =>
      partial ←
        (fix SerializeJSONArray (l : list JSValue) : completion (list JSON) :=
           match l with
           | [] => Normal []
           | v :: l' =>
               strP ← SerializeJSONProperty v;
               rest ← SerializeJSONArray l';
               mret (default JSON_null strP :: rest)
           end) elements;
      mret (Some (JSON_array partial))
  | JObject properties =>
      partial ←
        (fix SerializeJSONObject (l : list (string * JSValue))
           : completion (list (string * JSON)) :=
           match l with
           | [] => Normal []
           | (P, v) :: l' =>
               strP ← SerializeJSONProperty v;
               rest ← SerializeJSONObject l';
               mret (match strP with
                     | Some j => (P, j) :: rest
                     | None => rest
                     end)
           end) properties;
      mret (Some (JSON_object partial))
  end.

Definition JSON_stringify (value : JSValue) : completion (option JSON) :=
  SerializeJSONProperty value.

Fixpoint JSON_value (j : JSON) : JSValue :=
  match j with
  | JSON_null => JNull
  | JSON_boolean b => JBoolean b
  | JSON_number x => JNumber x
  | JSON_string s => JString s
  | JSON_array elements => JArray (map JSON_value elements)
  | JSON_object members =>
      JObject (map (fun '(P, v) => (P, JSON_value v)) members)
  end.

(** [JSON.parse(text)]: [undefined] reads as the text ["undefined"], which
    is not JSON. *)
Definition JSON_parse (text : option JSON) : completion JSValue :=
  match text with
  | Some j => Normal (JSON_value j)
  | None => Throw SyntaxError
  end.

Definition isJSON (json : JSValue) : completion bool :=
  try_true_catch_false (text ← JSON_stringify json; JSON_parse text).

(** ** [validateShippingContact]

    [COUNTRY] of [@paypal/sdk-constants] is not among the sources: the
    function takes the table, read as [COUNTRY[key]], and its member
    [COUNTRY.US]. *)

Section Countries.

Variable COUNTRY : gmap string string.
Variable COUNTRY_US : string.

Definition shippingContactInvalid (contactField message : string)
  : ApplePayError.t :=
  {| ApplePayError.code := "shippingContactInvalid";
     ApplePayError.contactField := contactField;
     ApplePayError.message := message |}.

Definition validateShippingContact (contact : option ApplePayPaymentContact.t)
  : ShippingContactValidation.t :=
  let errors := [] in

  let errors :=
    if negb (truthy (contact ≫= ApplePayPaymentContact.locality))
    then errors ++ [shippingContactInvalid "locality" "City is invalid"]
    else errors in

  let country_code :=
    match contact ≫= ApplePayPaymentContact.countryCode with
    | Some countryCode =>
        if truthy (Some countryCode)
        then COUNTRY !! toUpperCase countryCode
        else None
    | None => None
    end in
  let errors :=
    if negb (truthy country_code)
    then errors ++ [shippingContactInvalid "countryCode" "Country code is invalid"]
    else errors in

  let errors :=
    if bool_decide (country_code = Some COUNTRY_US)
       && negb (truthy (contact ≫= ApplePayPaymentContact.administrativeArea))
    then errors ++ [shippingContactInvalid "administrativeArea" "State is invalid"]
    else errors in

  let errors :=
    if negb (truthy (contact ≫= ApplePayPaymentContact.postalCode))
    then errors ++ [shippingContactInvalid "postalCode" "Postal code is invalid"]
    else errors in

  let shipping_address :=
    {| Shipping_Address.city := contact ≫= ApplePayPaymentContact.locality;
       Shipping_Address.state := contact ≫= ApplePayPaymentContact.administrativeArea;
       Shipping_Address.country_code := country_code;
       Shipping_Address.postal_code := contact ≫= ApplePayPaymentContact.postalCode |} in

  {| ShippingContactValidation.errors := errors;
     ShippingContactValidation.shipping_address := shipping_address |}.

End Countries.

(** ** Instances of what the module imports

    Two sorts by insertion, for instances of the engine's sort. The first
    inserts from the right: an element stays in front of those it does not
    compare greater than. *)

Fixpoint sort_insert {A : Type} (comparefn : A -> A -> Z) (x : A) (l : list A)
  : list A :=
  match l with
  | [] => [x]
  | y :: l' =>
      if (comparefn x y <=? 0)%Z then x :: y :: l'
      else y :: sort_insert comparefn x l'
  end.

Fixpoint insertion_sort (A : Type) (comparefn : A -> A -> Z) (l : list A)
  : list A :=
  match l with
  | [] => []
  | x :: l' => sort_insert comparefn x (insertion_sort A comparefn l')
  end.

(** The second inserts from the left: an element moves in front of those it
    compares less than. *)
Fixpoint sort_insert_back {A : Type} (comparefn : A -> A -> Z) (x : A)
  (sorted_rev : list A) : list A :=
  match sorted_rev with
  | [] => [x]
  | y :: l' =>
      if (comparefn x y <? 0)%Z then y :: sort_insert_back comparefn x l'
      else x :: y :: l'
  end.

Definition insertion_sort_left (A : Type) (comparefn : A -> A -> Z)
  (l : list A) : list A :=
  rev (fold_left (fun sorted_rev x => sort_insert_back comparefn x sorted_rev) l []).

(** Modelled from the spec: the fixed country-code table [COUNTRY], which is
    not among the sources. An excerpt for the examples, each code standing
    for itself. *)
Definition COUNTRY_excerpt : gmap string string :=
  <["US" := "US"]> (<["FR" := "FR"]> (<["DE" := "DE"]> (<["CA" := "CA"]> ∅))).

(** ** Vocabulary of the statements *)

(** An issuer as it is looked up: lower-cased, underscores stripped. *)
Definition normalize_issuer (issuer : string) : string :=
  remove_all "_" (toLowerCase issuer).

(** The entries of [validNetworks] that a normalized issuer can reach. *)
Definition reachable_networks : list (string * string) :=
  [("discover", "discover"); ("visa", "visa"); ("mastercard", "masterCard");
   ("amex", "amex"); ("maestro", "maestro"); ("jcb", "jcb")].

Fixpoint assoc (table : list (string * string)) (key : string) : option string :=
  match table with
  | [] => None
  | (k, v) :: table' => if String.eqb k key then Some v else assoc table' key
  end.

(** The network that an issuer stands for, if any. *)
Definition network_of (issuer : string) : option string :=
  assoc reachable_networks (normalize_issuer issuer).

Arguments network_of : simpl never.

(** [[x]] when [b] holds and nothing otherwise. *)
Definition when {A : Type} (b : bool) (x : A) : list A :=
  if b then [x] else [].

(** The entry of [lineItems] with the given label and amount. *)
Definition line (label : string) (amount : option string) : LineItem.t :=
  {| LineItem.label := label; LineItem.amount := amount; LineItem.type := None |}.

(** A value is present: a non-empty string. *)
Definition present (value : option string) : bool := truthy value.

(** A present value is non-zero. *)
Definition nonzero (value : option string) : bool :=
  match value with
  | Some v => negb (isZeroAmount v)
  | None => true
  end.

(** The paths that [createApplePayRequest] reads in the order. *)
Definition order_cart (order : DetailedOrderInfo.t) : option Cart.t :=
  DetailedOrderInfo.checkoutSession order ≫= CheckoutSession.cart.

Definition order_amount (which : Amounts.t -> option Amount.t)
  (order : DetailedOrderInfo.t) : option string :=
  ((order_cart order ≫= Cart.amounts) ≫= which) ≫= Amount.currencyValue.

Definition order_shippingMethods (order : DetailedOrderInfo.t)
  : list ShippingMethod.t :=
  default [] (order_cart order ≫= Cart.shippingMethods).

Definition order_shippingAddress (order : DetailedOrderInfo.t)
  : option ShippingAddress.t :=
  order_cart order ≫= Cart.shippingAddress.

Definition order_isShippingAddressRequired (order : DetailedOrderInfo.t) : bool :=
  truthy_bool ((DetailedOrderInfo.checkoutSession order ≫= CheckoutSession.flags)
                 ≫= Flags.isShippingAddressRequired).

Definition order_allowedCardIssuers (order : DetailedOrderInfo.t)
  : option (list string) :=
  DetailedOrderInfo.checkoutSession order ≫= CheckoutSession.allowedCardIssuers.

(** The first method of the order that is marked selected. *)
Definition order_selectedMethod (order : DetailedOrderInfo.t)
  : option ShippingMethod.t :=
  List.find (fun method => truthy_bool (ShippingMethod.selected method))
            (order_shippingMethods order).

(** An order of the declared type, from its parts. *)
Definition make_order (required : option bool) (issuers : option (list string))
  (shipping tax subtotal total : Amount.t)
  (address : option ShippingAddress.t)
  (methods : option (list ShippingMethod.t)) : DetailedOrderInfo.t :=
  {| DetailedOrderInfo.checkoutSession := Some
     {| CheckoutSession.flags := Some {| Flags.isShippingAddressRequired := required |};
        CheckoutSession.allowedCardIssuers := issuers;
        CheckoutSession.cart := Some
          {| Cart.amounts := Some
               {| Amounts.shippingAndHandling := Some shipping;
                  Amounts.tax := Some tax;
                  Amounts.subtotal := Some subtotal;
                  Amounts.total := Some total |};
             Cart.shippingAddress := address;
             Cart.shippingMethods := methods |} |} |}.

Definition USD (value : string) : Amount.t :=
  {| Amount.currencyCode := Some "USD"; Amount.currencyValue := Some value |}.

(** ** Sample inputs *)

(** No subtotal, a tax of 5.00, free shipping, no shipping method. *)
Definition order_tax_only : DetailedOrderInfo.t :=
  make_order (Some true) (Some ["VISA"; "Master_Card"; "unknown"])
    (USD "0.00") (USD "5.00") (USD "0.00") (USD "5.00") None None.

Definition pickup_method : ShippingMethod.t :=
  {| ShippingMethod.id := Some "PICKUP_1";
     ShippingMethod.amount := Some (USD "0.00");
     ShippingMethod.label := Some "Pick up in store";
     ShippingMethod.type := Some "PICKUP";
     ShippingMethod.selected := Some true |}.

Definition standard_method : ShippingMethod.t :=
  {| ShippingMethod.id := None;
     ShippingMethod.amount := None;
     ShippingMethod.label := Some "Standard";
     ShippingMethod.type := Some "SHIPPING";
     ShippingMethod.selected := Some false |}.

(** Free shipping with the pick-up method selected. *)
Definition order_pickup : DetailedOrderInfo.t :=
  make_order None None
    (USD "0.00") (USD "1.00") (USD "10.00") (USD "11.00") None
    (Some [standard_method; pickup_method]).

Definition contact_of (locality administrativeArea postalCode countryCode
  : option string) : ApplePayPaymentContact.t :=
  {| ApplePayPaymentContact.givenName := None;
     ApplePayPaymentContact.familyName := None;
     ApplePayPaymentContact.addressLines := None;
     ApplePayPaymentContact.locality := locality;
     ApplePayPaymentContact.administrativeArea := administrativeArea;
     ApplePayPaymentContact.postalCode := postalCode;
     ApplePayPaymentContact.country := None;
     ApplePayPaymentContact.countryCode := countryCode |}.

(** [{locality: "X", countryCode: "US", postalCode: "10001"}]. *)
Definition contact_without_state : ApplePayPaymentContact.t :=
  contact_of (Some "X") None (Some "10001") (Some "US").

(** A complete contact in France, the country code in lower case. *)
Definition contact_in_france : ApplePayPaymentContact.t :=
  contact_of (Some "Paris") (Some "IDF") (Some "75001") (Some "fr").

(** A complete contact in Germany, the country code in upper case. *)
Definition contact_in_germany : ApplePayPaymentContact.t :=
  contact_of (Some "Berlin") (Some "BE") (Some "10115") (Some "DE").

(** The country code that a contact's code resolves to. *)
Definition resolve_country (COUNTRY : gmap string string)
  (countryCode : option string) : option string :=
  if present countryCode
  then countryCode ≫= (fun code => COUNTRY !! toUpperCase code)
  else None.

(** A number below half a cent: a zero, or a positive [m * 2^e] with
    [200 * m * 2^e < 1]. *)
Definition below_half_cent (x : spec_float) : Prop :=
  match x with
  | S754_zero _ => True
  | S754_finite false m e =>
      (200 * Z.pos m * 2 ^ Z.max e 0 < 2 ^ Z.max (- e) 0)%Z
  | _ => False
  end.

(** The round trip as the specification words it: for a contact with the
    four fields present whose country code resolves to a country other than
    the United States there is no error, and the fields of the normalized
    address equal the fields of the contact. *)
Definition round_trip_as_specified (COUNTRY : gmap string string)
  (COUNTRY_US : string) (contact : ApplePayPaymentContact.t) : Prop :=
  present (ApplePayPaymentContact.locality contact) = true ->
  present (ApplePayPaymentContact.administrativeArea contact) = true ->
  present (ApplePayPaymentContact.postalCode contact) = true ->
  present (ApplePayPaymentContact.countryCode contact) = true ->
  (exists code,
     resolve_country COUNTRY (ApplePayPaymentContact.countryCode contact) = Some code
     /\ code <> "" /\ code <> COUNTRY_US) ->
  let validation := validateShippingContact COUNTRY COUNTRY_US (Some contact) in
  let address := ShippingContactValidation.shipping_address validation in
  ShippingContactValidation.errors validation = [] /\
  Shipping_Address.city address = ApplePayPaymentContact.locality contact /\
  Shipping_Address.state address = ApplePayPaymentContact.administrativeArea contact /\
  Shipping_Address.country_code address = ApplePayPaymentContact.countryCode contact /\
  Shipping_Address.postal_code address = ApplePayPaymentContact.postalCode contact.

(** The currency code that [createApplePayRequest] reads: the total's. *)
Definition order_currencyCode (order : DetailedOrderInfo.t) : option string :=
  ((order_cart order ≫= Cart.amounts) ≫= Amounts.total) ≫= Amount.currencyCode.

(** A value that [JSON.stringify] gives no text for. *)
Definition no_JSON_text (value : JSValue) : bool :=
  match value with
  | JUndefined | JSymbol | JFunction => true
  | _ => false
  end.

(** A BigInt is the value, an element of it or the value of a property of
    it, at any depth. *)
Fixpoint has_BigInt (value : JSValue) : bool :=
  match value with
  | JBigInt _ => true
  | JArray elements => existsb has_BigInt elements
  | JObject properties => existsb (fun property => has_BigInt (snd property)) properties
  | _ => false
  end.

(** The two loops of [SerializeJSONProperty], over the elements of an array
    and over the properties of an object, on their own. *)
Fixpoint SerializeJSONArray (elements : list JSValue) : completion (list JSON) :=
  match elements with
  | [] => Normal []
  | v :: elements' =>
      strP ← SerializeJSONProperty v;
      rest ← SerializeJSONArray elements';
      mret (default JSON_null strP :: rest)
  end.

Fixpoint SerializeJSONObject (properties : list (string * JSValue))
  : completion (list (string * JSON)) :=
  match properties with
  | [] => Normal []
  | (P, v) :: properties' =>
      strP ← SerializeJSONProperty v;
      rest ← SerializeJSONObject properties';
      mret (match strP with
            | Some j => (P, j) :: rest
            | None => rest
            end)
  end.

(** A string of ASCII characters only. *)
Fixpoint ascii_only (s : string) : bool :=
  match s with
  | EmptyString => true
  | String c s' => (N_of_ascii c <? 128)%N && ascii_only s'
  end.

(** The flag that [createApplePayRequest] reads in the order. *)
Definition order_flag (order : DetailedOrderInfo.t) : option bool :=
  (DetailedOrderInfo.checkoutSession order ≫= CheckoutSession.flags)
    ≫= Flags.isShippingAddressRequired.

Definition address_in_london : ShippingAddress.t :=
  {| ShippingAddress.firstName := Some "Ada";
     ShippingAddress.lastName := Some "Lovelace";
     ShippingAddress.line1 := Some "12 St James's Square";
     ShippingAddress.line2 := None;
     ShippingAddress.city := Some "London";
     ShippingAddress.state := None;
     ShippingAddress.postalCode := Some "SW1Y 4JH";
     ShippingAddress.country := Some "GB" |}.

(** An order with a shipping address whose flag is not set. *)
Definition order_with_address : DetailedOrderInfo.t :=
  make_order (Some false) (Some ["AMEX"])
    (USD "4.00") (USD "0.00") (USD "20.00") (USD "24.00")
    (Some address_in_london) None.

(* ===================================================================== *)
(** * Properties *)
(* ===================================================================== *)

(** ** Strings and tables *)

(** Membership of a literal in a list of literals, as the goal or as a
    hypothesis to refute. *)
Ltac literal_mem :=
  repeat first [apply list_elem_of_here | apply list_elem_of_further].

Ltac literal_not_mem H :=
  repeat (apply elem_of_cons in H as [H|H]; [discriminate H|]);
  by apply elem_of_nil in H.

Lemma string_mem_remove_all (c : ascii) (s : string) :
  string_mem c (remove_all c s) = false.
Proof.
  induction s as [|d s IH]; simpl; [reflexivity|].
  destruct (Ascii.eqb d c) eqn:E; simpl; [assumption|].
  rewrite E. assumption.
Qed.

Lemma includes_Object_keys {V : Type} (o : gmap string V) (k : string) :
  includes (Object_keys o) k = true <-> is_Some (o !! k).
Proof.
  unfold includes, Object_keys. rewrite bool_decide_eq_true.
  rewrite list_elem_of_fmap. split.
  - intros [[k' v] [-> Hin]]. apply elem_of_map_to_list in Hin. eauto.
  - intros [v Hv]. exists (k, v). split; [reflexivity|].
    by apply elem_of_map_to_list.
Qed.

Lemma validNetworks_normalized (issuer : string) :
  validNetworks !! normalize_issuer issuer
  = assoc reachable_networks (normalize_issuer issuer).
Proof.
  assert (Hmem : string_mem "_" (normalize_issuer issuer) = false)
    by apply string_mem_remove_all.
  generalize dependent (normalize_issuer issuer). intros k Hmem.
  unfold validNetworks, reachable_networks, assoc.
  repeat (rewrite lookup_insert; case_decide as Hk;
          [ subst k; first [reflexivity | discriminate Hmem]
          | apply String.eqb_neq in Hk; rewrite ?Hk; clear Hk ]).
  apply lookup_empty.
Qed.

Lemma validateIssuers_spec (validIssuers : list string) (issuer : string) :
  validateIssuers validIssuers issuer
  = validIssuers ++ option_list (validNetworks !! normalize_issuer issuer).
Proof.
  unfold validateIssuers. fold (normalize_issuer issuer).
  destruct (includes _ _) eqn:E; [reflexivity|].
  destruct (validNetworks !! normalize_issuer issuer) eqn:L.
  - assert (includes (Object_keys validNetworks) (normalize_issuer issuer) = true)
      by (apply includes_Object_keys; eauto).
    congruence.
  - simpl. by rewrite app_nil_r.
Qed.

Lemma fold_validateIssuers (issuers validIssuers : list string) :
  fold_left validateIssuers issuers validIssuers
  = validIssuers ++ omap network_of issuers.
Proof.
  revert validIssuers.
  induction issuers as [|issuer issuers IH]; intros validIssuers; simpl.
  - by rewrite app_nil_r.
  - rewrite IH, validateIssuers_spec, validNetworks_normalized.
    fold (network_of issuer).
    destruct (network_of issuer); simpl;
      [by rewrite <- app_assoc | by rewrite app_nil_r].
Qed.

Lemma getSupportedNetworksFromIssuers_omap (issuers : option (list string)) :
  getSupportedNetworksFromIssuers issuers
  = omap network_of (default [] issuers).
Proof.
  unfold getSupportedNetworksFromIssuers. by rewrite fold_validateIssuers.
Qed.

Lemma assoc_reachable_values (k v : string) :
  assoc reachable_networks k = Some v ->
  v ∈ ["discover"; "visa"; "masterCard"; "amex"; "maestro"; "jcb"].
Proof.
  unfold reachable_networks, assoc.
  repeat (destruct (String.eqb _ k); [intros [= <-]; literal_mem|]).
  discriminate.
Qed.

Lemma supported_network_values (issuers : option (list string)) (network : string) :
  network ∈ getSupportedNetworksFromIssuers issuers ->
  network ∈ ["discover"; "visa"; "masterCard"; "amex"; "maestro"; "jcb"].
Proof.
  rewrite getSupportedNetworksFromIssuers_omap, list_elem_of_omap.
  intros (issuer & _ & H). by apply assoc_reachable_values in H.
Qed.

(** ** The request that [createApplePayRequest] builds *)

Lemma present_and_nonzero_spec (value : option string) :
  present_and_nonzero value = present value && nonzero value.
Proof. destruct value as [v|]; reflexivity. Qed.

Lemma lineItems_push (b : bool) (result : ApplePayPaymentRequest.t)
  (item : LineItem.t) :
  ApplePayPaymentRequest.lineItems
    (if b then ApplePayPaymentRequest.push_lineItem result item else result)
  = ApplePayPaymentRequest.lineItems result ++ when b item.
Proof. destruct b; simpl; [reflexivity | by rewrite app_nil_r]. Qed.

(** Pushing a line item changes no other property of the result. *)
Lemma push_keeps {B : Type} (field : ApplePayPaymentRequest.t -> B) (b : bool)
  (result : ApplePayPaymentRequest.t) (item : LineItem.t) :
  (forall r i, field (ApplePayPaymentRequest.push_lineItem r i) = field r) ->
  field (if b then ApplePayPaymentRequest.push_lineItem result item else result)
  = field result.
Proof. intros H. destruct b; [apply H | reflexivity]. Qed.

Lemma createApplePayRequest_declared
  (Array_sort : forall A : Type, (A -> A -> Z) -> list A -> list A)
  (countryCode : string) (order : DetailedOrderInfo.t) :
  DetailedOrderInfo.declared order ->
  exists request,
    createApplePayRequest Array_sort countryCode order = Normal request /\
    ApplePayPaymentRequest.countryCode request = countryCode /\
    ApplePayPaymentRequest.supportedNetworks request
      = getSupportedNetworksFromIssuers (order_allowedCardIssuers order) /\
    ApplePayPaymentRequest.merchantCapabilities request
      = getMerchantCapabilities
          (Some (getSupportedNetworksFromIssuers (order_allowedCardIssuers order))) /\
    ApplePayPaymentRequest.requiredBillingContactFields request
      = ["postalAddress"; "name"; "phone"] /\
    ApplePayPaymentRequest.requiredShippingContactFields request
      = (if order_isShippingAddressRequired order
         then ["postalAddress"; "name"; "phone"; "email"]
         else ["name"; "phone"; "email"]) /\
    ApplePayPaymentRequest.shippingContact request
      = (let contact := getShippingContactFromAddress (order_shippingAddress order) in
         if truthy (ApplePayPaymentContact.givenName contact)
         then contact else ApplePayPaymentContact.empty) /\
    ApplePayPaymentRequest.shippingMethods request
      = getApplePayShippingMethods Array_sort
          (order_cart order ≫= Cart.shippingMethods) /\
    ApplePayPaymentRequest.lineItems request
      = (let subtotal := order_amount Amounts.subtotal order in
         let tax := order_amount Amounts.tax order in
         let shipping := order_amount Amounts.shippingAndHandling order in
         let pickup :=
           bool_decide (order_selectedMethod order ≫= ShippingMethod.type
                        = Some "PICKUP") in
         when (present subtotal && nonzero subtotal) (line "Subtotal" subtotal)
         ++ when (present tax && nonzero tax) (line "Sales Tax" tax)
         ++ when (present shipping && (nonzero shipping || pickup))
                 (line "Shipping" shipping)) /\
    ApplePayPaymentRequest.total request
      = {| LineItem.label := "Total";
           LineItem.amount := order_amount Amounts.total order;
           LineItem.type := Some "final" |}.
Proof.
  intros (session & flags & cart & amounts & shipping & tax & subtotal & total
          & Hs & Hf & Hc & Ha & Hsh & Ht & Hsu & Hto).
  unfold createApplePayRequest.
  unfold order_allowedCardIssuers, order_isShippingAddressRequired,
    order_shippingAddress, order_amount, order_selectedMethod,
    order_shippingMethods, order_cart.
  rewrite Hs. cbn [mbind completion_bind option_bind destructure].
  rewrite Hf, Hc. cbn [mbind completion_bind option_bind destructure].
  rewrite Ha. cbn [mbind completion_bind option_bind destructure].
  rewrite Hsh, Ht, Hsu, Hto.
  cbn [mbind completion_bind option_bind destructure mret completion_ret].
  eexists. split; [reflexivity|].
  rewrite !lineItems_push. rewrite !push_keeps by (intros; reflexivity).
  cbn [ApplePayPaymentRequest.countryCode ApplePayPaymentRequest.supportedNetworks
       ApplePayPaymentRequest.merchantCapabilities
       ApplePayPaymentRequest.requiredBillingContactFields
       ApplePayPaymentRequest.requiredShippingContactFields
       ApplePayPaymentRequest.shippingContact ApplePayPaymentRequest.shippingMethods
       ApplePayPaymentRequest.lineItems ApplePayPaymentRequest.total].
  rewrite !present_and_nonzero_spec.
  repeat (split; [reflexivity|]). split; [|reflexivity].
  cbn [app]. rewrite <- !app_assoc. unfold line, present.
  destruct (Amount.currencyValue shipping); reflexivity.
Qed.

Lemma make_order_declared required issuers shipping tax subtotal total address methods :
  DetailedOrderInfo.declared
    (make_order required issuers shipping tax subtotal total address methods).
Proof. unfold DetailedOrderInfo.declared, make_order. by repeat eexists. Qed.

(** ** Supported networks *)

(** C1. An issuer is lower-cased and stripped of its underscores before it
    is looked up, so the result lists, in input order and with repetitions,
    the networks of the issuers that normalize to one of discover, visa,
    mastercard, amex, maestro and jcb; ["VISA"; "Master_Card"; "unknown"]
    gives visa and masterCard. The table's entry for cartesBancaires is
    filed under the key cb_nationale, which no normalized issuer equals:
    "CB_NATIONALE" is dropped and cartesBancaires is never listed. *)
Theorem getSupportedNetworksFromIssuers_never_cartesBancaires :
  (forall issuers : option (list string),
     getSupportedNetworksFromIssuers issuers
     = omap network_of (default [] issuers)) /\
  getSupportedNetworksFromIssuers (Some ["VISA"; "Master_Card"; "unknown"])
  = ["visa"; "masterCard"] /\
  validNetworks !! "cb_nationale" = Some "cartesBancaires" /\
  normalize_issuer "CB_NATIONALE" = "cbnationale" /\
  getSupportedNetworksFromIssuers (Some ["CB_NATIONALE"]) = [] /\
  (forall issuers : option (list string),
     includes (getSupportedNetworksFromIssuers issuers) "cartesBancaires" = false).
Proof.
  split; [apply getSupportedNetworksFromIssuers_omap|].
  repeat (split; [by vm_compute|]).
  intros issuers. apply bool_decide_eq_false_2.
  intros H. apply supported_network_values in H. literal_not_mem H.
Qed.

(** C10. The request of an order of the declared type has exactly the
    capabilities supports3DS, supportsCredit and supportsDebit: its supported
    networks come out of [getSupportedNetworksFromIssuers], which never
    lists chinaUnionPay. *)
Theorem createApplePayRequest_never_supportsEMV
  (Array_sort : forall A : Type, (A -> A -> Z) -> list A -> list A)
  (countryCode : string) (order : DetailedOrderInfo.t) :
  DetailedOrderInfo.declared order ->
  exists request,
    createApplePayRequest Array_sort countryCode order = Normal request /\
    includes (ApplePayPaymentRequest.supportedNetworks request) "chinaUnionPay"
    = false /\
    ApplePayPaymentRequest.merchantCapabilities request
    = ["supports3DS"; "supportsCredit"; "supportsDebit"].
Proof.
  intros Hd.
  destruct (createApplePayRequest_declared Array_sort countryCode order Hd)
    as (request & Hr & _ & Hn & Hm & _).
  exists request. split; [exact Hr|].
  assert (Hnot : "chinaUnionPay" ∉ getSupportedNetworksFromIssuers
                   (order_allowedCardIssuers order)).
  { intros H. apply supported_network_values in H. literal_not_mem H. }
  split; [rewrite Hn; by apply bool_decide_eq_false_2|].
  rewrite Hm. unfold getMerchantCapabilities, includes.
  cbn [default]. by rewrite bool_decide_eq_false_2.
Qed.

Lemma createApplePayRequest_never_supportsEMV_witness :
  DetailedOrderInfo.declared order_tax_only /\
  exists request,
    createApplePayRequest insertion_sort "US" order_tax_only = Normal request /\
    includes (ApplePayPaymentRequest.supportedNetworks request) "chinaUnionPay"
    = false /\
    ApplePayPaymentRequest.merchantCapabilities request
    = ["supports3DS"; "supportsCredit"; "supportsDebit"].
Proof.
  split; [apply make_order_declared|].
  apply (createApplePayRequest_never_supportsEMV insertion_sort "US" order_tax_only).
  apply make_order_declared.
Defined.

(** ** Line items and contact fields of the request *)

(** C4. The line items of the request of an order of the declared type are,
    in this order: Subtotal when the subtotal is present (a non-empty
    string) and non-zero, Sales Tax when the tax is present and non-zero,
    Shipping when the shipping value is present and either non-zero or the
    type of the first selected shipping method is PICKUP; the total is
    always the item Total with the total value and the type final. With
    subtotal 0.00, tax 5.00, shipping 0.00 and no shipping method the only
    line item is Sales Tax; with shipping 0.00 and a selected PICKUP method
    there is a Shipping item of amount 0.00. *)
Theorem createApplePayRequest_lineItems
  (Array_sort : forall A : Type, (A -> A -> Z) -> list A -> list A)
  (countryCode : string) :
  (forall order : DetailedOrderInfo.t,
     DetailedOrderInfo.declared order ->
     exists request,
       createApplePayRequest Array_sort countryCode order = Normal request /\
       ApplePayPaymentRequest.lineItems request
       = (let subtotal := order_amount Amounts.subtotal order in
          let tax := order_amount Amounts.tax order in
          let shipping := order_amount Amounts.shippingAndHandling order in
          let pickup :=
            bool_decide (order_selectedMethod order ≫= ShippingMethod.type
                         = Some "PICKUP") in
          when (present subtotal && nonzero subtotal) (line "Subtotal" subtotal)
          ++ when (present tax && nonzero tax) (line "Sales Tax" tax)
          ++ when (present shipping && (nonzero shipping || pickup))
                  (line "Shipping" shipping)) /\
       ApplePayPaymentRequest.total request
       = {| LineItem.label := "Total";
            LineItem.amount := order_amount Amounts.total order;
            LineItem.type := Some "final" |}) /\
  (exists request,
     createApplePayRequest Array_sort countryCode order_tax_only = Normal request /\
     ApplePayPaymentRequest.lineItems request = [line "Sales Tax" (Some "5.00")] /\
     ApplePayPaymentRequest.total request
     = {| LineItem.label := "Total"; LineItem.amount := Some "5.00";
          LineItem.type := Some "final" |}) /\
  (exists request,
     createApplePayRequest Array_sort countryCode order_pickup = Normal request /\
     order_selectedMethod order_pickup = Some pickup_method /\
     ApplePayPaymentRequest.lineItems request
     = [line "Subtotal" (Some "10.00"); line "Sales Tax" (Some "1.00");
        line "Shipping" (Some "0.00")]).
Proof.
  split; [|split].
  - intros order Hd.
    destruct (createApplePayRequest_declared Array_sort countryCode order Hd)
      as (request & Hr & _ & _ & _ & _ & _ & _ & _ & Hl & Ht).
    exists request. auto.
  - destruct (createApplePayRequest_declared Array_sort countryCode order_tax_only)
      as (request & Hr & _ & _ & _ & _ & _ & _ & _ & Hl & Ht);
      [apply make_order_declared|].
    exists request. split; [exact Hr|]. rewrite Hl, Ht.
    vm_compute. split; reflexivity.
  - destruct (createApplePayRequest_declared Array_sort countryCode order_pickup)
      as (request & Hr & _ & _ & _ & _ & _ & _ & _ & Hl & _);
      [apply make_order_declared|].
    exists request. split; [exact Hr|]. rewrite Hl.
    vm_compute. split; reflexivity.
Qed.

Lemma createApplePayRequest_lineItems_witness :
  DetailedOrderInfo.declared order_pickup /\
  exists request,
    createApplePayRequest insertion_sort "US" order_pickup = Normal request /\
    ApplePayPaymentRequest.lineItems request
    = [line "Subtotal" (Some "10.00"); line "Sales Tax" (Some "1.00");
       line "Shipping" (Some "0.00")] /\
    ApplePayPaymentRequest.total request
    = {| LineItem.label := "Total"; LineItem.amount := Some "11.00";
         LineItem.type := Some "final" |}.
Proof.
  split; [apply make_order_declared|].
  apply (proj1 (createApplePayRequest_lineItems insertion_sort "US") order_pickup).
  apply make_order_declared.
Defined.

(** C6. The request of an order of the declared type asks for the billing
    contact fields postalAddress, name and phone; for the shipping contact
    fields postalAddress, name, phone and email when the order's flag
    isShippingAddressRequired is true and name, phone and email otherwise;
    and its shipping contact is the contact mapped from the order's shipping
    address (given and family name from the first and last name, the two
    address lines, locality from the city, administrative area from the
    state, the postal code, country and country code from the country) when
    the first name, which is that contact's given name, is a non-empty
    string, and the empty record otherwise. *)
Theorem createApplePayRequest_contact_fields
  (Array_sort : forall A : Type, (A -> A -> Z) -> list A -> list A)
  (countryCode : string) (order : DetailedOrderInfo.t) :
  DetailedOrderInfo.declared order ->
  exists request,
    createApplePayRequest Array_sort countryCode order = Normal request /\
    ApplePayPaymentRequest.requiredBillingContactFields request
    = ["postalAddress"; "name"; "phone"] /\
    ApplePayPaymentRequest.requiredShippingContactFields request
    = match order_flag order with
      | Some true => ["postalAddress"; "name"; "phone"; "email"]
      | _ => ["name"; "phone"; "email"]
      end /\
    ApplePayPaymentRequest.shippingContact request
    = match order_shippingAddress order with
      | Some address =>
          match ShippingAddress.firstName address with
          | Some (String _ _) =>
              {| ApplePayPaymentContact.givenName :=
                   ShippingAddress.firstName address;
                 ApplePayPaymentContact.familyName :=
                   ShippingAddress.lastName address;
                 ApplePayPaymentContact.addressLines :=
                   Some [ShippingAddress.line1 address;
                         ShippingAddress.line2 address];
                 ApplePayPaymentContact.locality := ShippingAddress.city address;
                 ApplePayPaymentContact.administrativeArea :=
                   ShippingAddress.state address;
                 ApplePayPaymentContact.postalCode :=
                   ShippingAddress.postalCode address;
                 ApplePayPaymentContact.country := ShippingAddress.country address;
                 ApplePayPaymentContact.countryCode :=
                   ShippingAddress.country address |}
          | _ =>
              {| ApplePayPaymentContact.givenName := None;
                 ApplePayPaymentContact.familyName := None;
                 ApplePayPaymentContact.addressLines := None;
                 ApplePayPaymentContact.locality := None;
                 ApplePayPaymentContact.administrativeArea := None;
                 ApplePayPaymentContact.postalCode := None;
                 ApplePayPaymentContact.country := None;
                 ApplePayPaymentContact.countryCode := None |}
          end
      | None =>
          {| ApplePayPaymentContact.givenName := None;
             ApplePayPaymentContact.familyName := None;
             ApplePayPaymentContact.addressLines := None;
             ApplePayPaymentContact.locality := None;
             ApplePayPaymentContact.administrativeArea := None;
             ApplePayPaymentContact.postalCode := None;
             ApplePayPaymentContact.country := None;
             ApplePayPaymentContact.countryCode := None |}
      end.
Proof.
  intros Hd.
  destruct (createApplePayRequest_declared Array_sort countryCode order Hd)
    as (request & Hr & _ & _ & _ & Hb & Hs & Hc & _).
  exists request. split; [exact Hr|]. split; [exact Hb|]. split.
  - rewrite Hs. unfold order_isShippingAddressRequired.
    fold (order_flag order). by destruct (order_flag order) as [[|]|].
  - rewrite Hc. cbv zeta.
    destruct (order_shippingAddress order)
      as [[firstName lastName line1 line2 city state postalCode country]|];
      [|reflexivity].
    cbn [getShippingContactFromAddress ApplePayPaymentContact.givenName
         ShippingAddress.firstName ShippingAddress.lastName
         ShippingAddress.line1 ShippingAddress.line2 ShippingAddress.city
         ShippingAddress.state ShippingAddress.postalCode
         ShippingAddress.country].
    by destruct firstName as [[|c s]|].
Qed.

Lemma createApplePayRequest_contact_fields_witness :
  (DetailedOrderInfo.declared order_with_address /\
   exists request,
     createApplePayRequest insertion_sort "GB" order_with_address = Normal request /\
     ApplePayPaymentRequest.requiredBillingContactFields request
     = ["postalAddress"; "name"; "phone"] /\
     ApplePayPaymentRequest.requiredShippingContactFields request
     = ["name"; "phone"; "email"] /\
     ApplePayPaymentRequest.shippingContact request
     = {| ApplePayPaymentContact.givenName := Some "Ada";
          ApplePayPaymentContact.familyName := Some "Lovelace";
          ApplePayPaymentContact.addressLines :=
            Some [Some "12 St James's Square"; None];
          ApplePayPaymentContact.locality := Some "London";
          ApplePayPaymentContact.administrativeArea := None;
          ApplePayPaymentContact.postalCode := Some "SW1Y 4JH";
          ApplePayPaymentContact.country := Some "GB";
          ApplePayPaymentContact.countryCode := Some "GB" |}) /\
  (DetailedOrderInfo.declared order_tax_only /\
   exists request,
     createApplePayRequest insertion_sort "US" order_tax_only = Normal request /\
     ApplePayPaymentRequest.requiredBillingContactFields request
     = ["postalAddress"; "name"; "phone"] /\
     ApplePayPaymentRequest.requiredShippingContactFields request
     = ["postalAddress"; "name"; "phone"; "email"] /\
     ApplePayPaymentRequest.shippingContact request
     = {| ApplePayPaymentContact.givenName := None;
          ApplePayPaymentContact.familyName := None;
          ApplePayPaymentContact.addressLines := None;
          ApplePayPaymentContact.locality := None;
          ApplePayPaymentContact.administrativeArea := None;
          ApplePayPaymentContact.postalCode := None;
          ApplePayPaymentContact.country := None;
          ApplePayPaymentContact.countryCode := None |}).
Proof.
  split; (split; [apply make_order_declared|]).
  - apply (createApplePayRequest_contact_fields insertion_sort "GB"
             order_with_address).
    apply make_order_declared.
  - apply (createApplePayRequest_contact_fields insertion_sort "US"
             order_tax_only).
    apply make_order_declared.
Defined.

(** ** The contact of a shipping address *)

(** C8. Without an address the contact has every field present and empty:
    empty strings and an empty list of address lines. With an address the
    address lines are the two-element list of line1 and line2, whatever
    line2 is; the names, the city, the state and the postal code are copied;
    country and countryCode are both the address's country. *)
Theorem getShippingContactFromAddress_fields :
  getShippingContactFromAddress None
  = {| ApplePayPaymentContact.givenName := Some "";
       ApplePayPaymentContact.familyName := Some "";
       ApplePayPaymentContact.addressLines := Some [];
       ApplePayPaymentContact.locality := Some "";
       ApplePayPaymentContact.administrativeArea := Some "";
       ApplePayPaymentContact.postalCode := Some "";
       ApplePayPaymentContact.country := Some "";
       ApplePayPaymentContact.countryCode := Some "" |} /\
  forall address : ShippingAddress.t,
    let contact := getShippingContactFromAddress (Some address) in
    ApplePayPaymentContact.addressLines contact
    = Some [ShippingAddress.line1 address; ShippingAddress.line2 address] /\
    ApplePayPaymentContact.givenName contact = ShippingAddress.firstName address /\
    ApplePayPaymentContact.familyName contact = ShippingAddress.lastName address /\
    ApplePayPaymentContact.locality contact = ShippingAddress.city address /\
    ApplePayPaymentContact.administrativeArea contact = ShippingAddress.state address /\
    ApplePayPaymentContact.postalCode contact = ShippingAddress.postalCode address /\
    ApplePayPaymentContact.country contact = ShippingAddress.country address /\
    ApplePayPaymentContact.countryCode contact = ShippingAddress.country address.
Proof.
  split; [reflexivity|].
  intros [firstName lastName line1 line2 city state postalCode country].
  by cbn.
Qed.

(** ** Shipping methods *)

Section Sorts.

Context {A : Type} (comparefn : A -> A -> Z).

Lemma sort_insert_perm (x : A) (l : list A) :
  Permutation (sort_insert comparefn x l) (x :: l).
Proof.
  induction l as [|y l IH]; simpl; [reflexivity|].
  destruct (comparefn x y <=? 0)%Z; [reflexivity|].
  rewrite IH. apply perm_swap.
Qed.

Lemma insertion_sort_perm (l : list A) :
  Permutation (insertion_sort A comparefn l) l.
Proof.
  induction l as [|x l IH]; simpl; [reflexivity|].
  rewrite sort_insert_perm. by constructor.
Qed.


(** With a comparison function that orders totally, the result is sorted. *)
Lemma insertion_sort_sorted (l : list A) :
  (forall x y, (0 < comparefn x y)%Z -> (comparefn y x <= 0)%Z) ->
  (forall x y z,
     (comparefn x y <= 0)%Z -> (comparefn y z <= 0)%Z -> (comparefn x z <= 0)%Z) ->
  StronglySorted (fun x y => (comparefn x y <= 0)%Z) (insertion_sort A comparefn l).
Proof.
  intros Htotal Htrans.
  induction l as [|x l IH]; simpl; [constructor|].
  induction IH as [|y sorted Hs IHs Hy]; simpl; [repeat constructor|].
  destruct (Z.leb_spec (comparefn x y) 0) as [Hle|Hgt].
  - constructor; [by constructor|].
    constructor; [exact Hle|].
    eapply Forall_impl; [exact Hy|]. intros z Hz. by eapply Htrans.
  - constructor; [exact IHs|].
    rewrite sort_insert_perm. constructor; [by apply Htotal | exact Hy].
Qed.

Lemma sort_insert_back_perm (x : A) (l : list A) :
  Permutation (sort_insert_back comparefn x l) (x :: l).
Proof.
  induction l as [|y l IH]; simpl; [reflexivity|].
  destruct (comparefn x y <? 0)%Z; [|reflexivity].
  rewrite IH. apply perm_swap.
Qed.

Lemma insertion_sort_left_perm (l : list A) :
  Permutation (insertion_sort_left A comparefn l) l.
Proof.
  unfold insertion_sort_left. rewrite <- Permutation_rev.
  assert (H : forall acc,
             Permutation
               (fold_left (fun sorted_rev x => sort_insert_back comparefn x sorted_rev) l acc)
               (l ++ acc)).
  { induction l as [|x l IH]; intros acc; simpl; [reflexivity|].
    rewrite IH, sort_insert_back_perm. by rewrite Permutation_middle. }
  rewrite H. by rewrite app_nil_r.
Qed.

End Sorts.




(** ** Validation of a shipping contact *)

Section Validation.

Variable COUNTRY : gmap string string.
Variable COUNTRY_US : string.

Lemma validateShippingContact_spec (contact : option ApplePayPaymentContact.t) :
  let validation := validateShippingContact COUNTRY COUNTRY_US contact in
  let locality := contact ≫= ApplePayPaymentContact.locality in
  let administrativeArea := contact ≫= ApplePayPaymentContact.administrativeArea in
  let postalCode := contact ≫= ApplePayPaymentContact.postalCode in
  let country_code :=
    resolve_country COUNTRY (contact ≫= ApplePayPaymentContact.countryCode) in
  ShippingContactValidation.errors validation
  = when (negb (present locality))
         (shippingContactInvalid "locality" "City is invalid")
    ++ when (negb (present country_code))
            (shippingContactInvalid "countryCode" "Country code is invalid")
    ++ when (bool_decide (country_code = Some COUNTRY_US)
             && negb (present administrativeArea))
            (shippingContactInvalid "administrativeArea" "State is invalid")
    ++ when (negb (present postalCode))
            (shippingContactInvalid "postalCode" "Postal code is invalid") /\
  ShippingContactValidation.shipping_address validation
  = {| Shipping_Address.city := locality;
       Shipping_Address.state := administrativeArea;
       Shipping_Address.country_code := country_code;
       Shipping_Address.postal_code := postalCode |}.
Proof.
  cbv zeta. unfold validateShippingContact, resolve_country, present.
  cbn [ShippingContactValidation.errors ShippingContactValidation.shipping_address].
  set (code := contact ≫= ApplePayPaymentContact.countryCode).
  assert (Hcode :
    match code with
    | Some countryCode =>
        if truthy (Some countryCode) then COUNTRY !! toUpperCase countryCode
        else None
    | None => None
    end
    = (if truthy code then code ≫= (fun c => COUNTRY !! toUpperCase c) else None)).
  { by destruct code as [[|? ?]|]. }
  rewrite Hcode. split; [|reflexivity].
  repeat match goal with
         | |- context [if ?b then _ ++ [_] else _] => destruct b
         end; reflexivity.
Qed.

End Validation.

(** C3. For every contact, absent ones included, the errors are those of
    the failing checks, in the order locality, countryCode,
    administrativeArea, postalCode, each with the code
    shippingContactInvalid, the name of its field and its message; the check
    of administrativeArea counts only when the country code resolved to the
    United States. The empty contact and the absent one have the three
    errors on locality, countryCode and postalCode; the contact with
    locality X, country code US and postal code 10001 has the one error on
    administrativeArea. With or without errors the normalized address holds
    the city, the state, the resolved country code (none when it did not
    resolve) and the postal code. *)
Theorem validateShippingContact_errors
  (COUNTRY : gmap string string) (COUNTRY_US : string)
  (contact : option ApplePayPaymentContact.t) :
  let validation := validateShippingContact COUNTRY COUNTRY_US contact in
  let locality := contact ≫= ApplePayPaymentContact.locality in
  let administrativeArea := contact ≫= ApplePayPaymentContact.administrativeArea in
  let postalCode := contact ≫= ApplePayPaymentContact.postalCode in
  let country_code :=
    resolve_country COUNTRY (contact ≫= ApplePayPaymentContact.countryCode) in
  ShippingContactValidation.errors validation
  = when (negb (present locality))
         {| ApplePayError.code := "shippingContactInvalid";
            ApplePayError.contactField := "locality";
            ApplePayError.message := "City is invalid" |}
    ++ when (negb (present country_code))
            {| ApplePayError.code := "shippingContactInvalid";
               ApplePayError.contactField := "countryCode";
               ApplePayError.message := "Country code is invalid" |}
    ++ when (bool_decide (country_code = Some COUNTRY_US)
             && negb (present administrativeArea))
            {| ApplePayError.code := "shippingContactInvalid";
               ApplePayError.contactField := "administrativeArea";
               ApplePayError.message := "State is invalid" |}
    ++ when (negb (present postalCode))
            {| ApplePayError.code := "shippingContactInvalid";
               ApplePayError.contactField := "postalCode";
               ApplePayError.message := "Postal code is invalid" |} /\
  ShippingContactValidation.shipping_address validation
  = {| Shipping_Address.city := locality;
       Shipping_Address.state := administrativeArea;
       Shipping_Address.country_code := country_code;
       Shipping_Address.postal_code := postalCode |} /\
  ShippingContactValidation.errors
    (validateShippingContact COUNTRY COUNTRY_US (Some ApplePayPaymentContact.empty))
  = [{| ApplePayError.code := "shippingContactInvalid";
        ApplePayError.contactField := "locality";
        ApplePayError.message := "City is invalid" |};
     {| ApplePayError.code := "shippingContactInvalid";
        ApplePayError.contactField := "countryCode";
        ApplePayError.message := "Country code is invalid" |};
     {| ApplePayError.code := "shippingContactInvalid";
        ApplePayError.contactField := "postalCode";
        ApplePayError.message := "Postal code is invalid" |}] /\
  ShippingContactValidation.errors
    (validateShippingContact COUNTRY COUNTRY_US None)
  = [{| ApplePayError.code := "shippingContactInvalid";
        ApplePayError.contactField := "locality";
        ApplePayError.message := "City is invalid" |};
     {| ApplePayError.code := "shippingContactInvalid";
        ApplePayError.contactField := "countryCode";
        ApplePayError.message := "Country code is invalid" |};
     {| ApplePayError.code := "shippingContactInvalid";
        ApplePayError.contactField := "postalCode";
        ApplePayError.message := "Postal code is invalid" |}] /\
  (COUNTRY !! "US" = Some COUNTRY_US -> COUNTRY_US <> "" ->
   ShippingContactValidation.errors
     (validateShippingContact COUNTRY COUNTRY_US (Some contact_without_state))
   = [{| ApplePayError.code := "shippingContactInvalid";
         ApplePayError.contactField := "administrativeArea";
         ApplePayError.message := "State is invalid" |}]).
Proof.
  cbv zeta.
  destruct (validateShippingContact_spec COUNTRY COUNTRY_US contact) as [He Ha].
  split; [exact He|]. split; [exact Ha|].
  split; [|split].
  - destruct (validateShippingContact_spec COUNTRY COUNTRY_US
                (Some ApplePayPaymentContact.empty)) as [-> _].
    reflexivity.
  - destruct (validateShippingContact_spec COUNTRY COUNTRY_US None) as [-> _].
    reflexivity.
  - intros HUS Hne.
    destruct (validateShippingContact_spec COUNTRY COUNTRY_US
                (Some contact_without_state)) as [-> _].
    cbv zeta.
    assert (Hr : resolve_country COUNTRY
                   (Some contact_without_state ≫= ApplePayPaymentContact.countryCode)
                 = Some COUNTRY_US) by exact HUS.
    rewrite Hr. rewrite bool_decide_eq_true_2 by reflexivity.
    destruct COUNTRY_US as [|c us]; [congruence|reflexivity].
Qed.

Lemma validateShippingContact_errors_witness :
  COUNTRY_excerpt !! "US" = Some "US" /\
  ShippingContactValidation.errors
    (validateShippingContact COUNTRY_excerpt "US" (Some contact_without_state))
  = [{| ApplePayError.code := "shippingContactInvalid";
        ApplePayError.contactField := "administrativeArea";
        ApplePayError.message := "State is invalid" |}] /\
  map ApplePayError.contactField
    (ShippingContactValidation.errors
       (validateShippingContact COUNTRY_excerpt "US" (Some contact_without_state)))
  = ["administrativeArea"].
Proof.
  split; [reflexivity|].
  assert (H : ShippingContactValidation.errors
                (validateShippingContact COUNTRY_excerpt "US"
                   (Some contact_without_state))
              = [{| ApplePayError.code := "shippingContactInvalid";
                    ApplePayError.contactField := "administrativeArea";
                    ApplePayError.message := "State is invalid" |}]).
  { apply (validateShippingContact_errors COUNTRY_excerpt "US" None).
    - reflexivity.
    - discriminate. }
  split; [exact H|]. rewrite H. reflexivity.
Defined.

(** Against C5 as stated: the round trip fails for a complete contact in
    France whose country code is in lower case. The normalized address has
    the table's FR, not the contact's fr. *)
Lemma round_trip_as_specified_fails :
  ~ round_trip_as_specified COUNTRY_excerpt "US" contact_in_france.
Proof.
  unfold round_trip_as_specified. intros H.
  destruct H as (_ & _ & _ & Hcode & _); try reflexivity.
  - exists "FR". split; [by vm_compute|]. split; discriminate.
  - vm_compute in Hcode. discriminate Hcode.
Qed.

(** C5, amended. For a contact whose locality, administrativeArea,
    postalCode and countryCode are present and non-empty and whose country
    code resolves to a country other than the United States, there is no
    error, and the normalized address has the contact's city, state and
    postal code and, as its country code, the table's entry for the
    upper-cased country code of the contact. *)
Theorem validateShippingContact_round_trip
  (COUNTRY : gmap string string) (COUNTRY_US : string)
  (contact : ApplePayPaymentContact.t) (code : string) :
  present (ApplePayPaymentContact.locality contact) = true ->
  present (ApplePayPaymentContact.administrativeArea contact) = true ->
  present (ApplePayPaymentContact.postalCode contact) = true ->
  present (ApplePayPaymentContact.countryCode contact) = true ->
  resolve_country COUNTRY (ApplePayPaymentContact.countryCode contact) = Some code ->
  code <> "" -> code <> COUNTRY_US ->
  let validation := validateShippingContact COUNTRY COUNTRY_US (Some contact) in
  let address := ShippingContactValidation.shipping_address validation in
  ShippingContactValidation.errors validation = [] /\
  Shipping_Address.city address = ApplePayPaymentContact.locality contact /\
  Shipping_Address.state address = ApplePayPaymentContact.administrativeArea contact /\
  Shipping_Address.postal_code address = ApplePayPaymentContact.postalCode contact /\
  Shipping_Address.country_code address = Some code /\
  (exists countryCode,
     ApplePayPaymentContact.countryCode contact = Some countryCode /\
     COUNTRY !! toUpperCase countryCode = Some code).
Proof.
  intros Hl Ha Hp Hc Hr Hne HnUS. cbv zeta.
  destruct (validateShippingContact_spec COUNTRY COUNTRY_US (Some contact))
    as [He Hs].
  cbv zeta in He, Hs. cbn [mbind option_bind] in He, Hs.
  rewrite He, Hs, Hl, Ha, Hp, Hr.
  cbn [Shipping_Address.city Shipping_Address.state
       Shipping_Address.postal_code Shipping_Address.country_code].
  rewrite bool_decide_eq_false_2 by congruence.
  assert (Hpc : present (Some code) = true)
    by (destruct code; [congruence|reflexivity]).
  rewrite Hpc. repeat (split; [reflexivity|]).
  unfold resolve_country in Hr. rewrite Hc in Hr.
  destruct (ApplePayPaymentContact.countryCode contact) as [countryCode|];
    [|discriminate Hr].
  exists countryCode. split; [reflexivity|exact Hr].
Qed.

Lemma validateShippingContact_round_trip_witness :
  Shipping_Address.country_code
    (ShippingContactValidation.shipping_address
       (validateShippingContact COUNTRY_excerpt "US" (Some contact_in_france)))
  = Some "FR" /\
  ShippingContactValidation.errors
    (validateShippingContact COUNTRY_excerpt "US" (Some contact_in_france)) = [].
Proof.
  pose proof (validateShippingContact_round_trip COUNTRY_excerpt "US"
                contact_in_france "FR") as H.
  cbv zeta in H.
  destruct H as (He & _ & _ & _ & Hc & _);
    [reflexivity | reflexivity | reflexivity | reflexivity
    | vm_compute; reflexivity | discriminate | discriminate |].
  split; [exact Hc | exact He].
Defined.

(** ** Zero amounts *)

Lemma place_point_zero (m : string) :
  place_point 2 m = "0.00" -> m = "" \/ m = "0" \/ m = "00" \/ m = "000".
Proof.
  destruct m as [|c1 [|c2 [|c3 [|c4 m]]]]; cbn; intros H.
  - by left.
  - injection H as ->. right. by left.
  - injection H as -> ->. right. right. by left.
  - injection H as -> -> ->. right. right. by right.
  - exfalso. injection H as _ _ H.
    destruct m as [|c5 m]; cbn in H; [discriminate H|].
    injection H as _ H.
    destruct m as [|c6 m]; cbn in H; [discriminate H|].
    injection H as _ H.
    destruct (String.length m) as [|[|k]]; discriminate H.
Qed.

Lemma decimal_digits_zero (n : Z) :
  (0 <= n)%Z ->
  decimal_digits n = "" \/ decimal_digits n = "0" \/ decimal_digits n = "00"
  \/ decimal_digits n = "000" ->
  n = 0%Z.
Proof.
  intros Hn H. unfold decimal_digits in H.
  pose proof (NilEmpty.usu (N.to_uint (Z.to_N n))) as Hu.
  assert (Hz : N.of_uint (N.to_uint (Z.to_N n)) = 0%N).
  { destruct H as [H|[H|[H|H]]]; rewrite H in Hu; cbn in Hu;
      injection Hu as <-; reflexivity. }
  rewrite DecimalN.Unsigned.of_to in Hz. lia.
Qed.

Lemma fixed_digits_zero (n : Z) :
  (0 <= n)%Z -> fixed_digits 2 n = "0.00" <-> n = 0%Z.
Proof.
  intros Hn. split; [|by intros ->].
  intros H. apply decimal_digits_zero; [exact Hn|].
  by apply place_point_zero.
Qed.

Lemma nearest_scaled_nonneg (f : nat) (m : positive) (e : Z) :
  (0 <= nearest_scaled f m e)%Z.
Proof.
  unfold nearest_scaled.
  assert (0 < 2 ^ Z.max (- e) 0)%Z by (apply Z.pow_pos_nonneg; lia).
  assert (0 <= 2 ^ Z.max e 0)%Z by (apply Z.pow_nonneg; lia).
  assert (0 <= 10 ^ Z.of_nat f)%Z by (apply Z.pow_nonneg; lia).
  apply Z.div_pos; nia.
Qed.

Lemma nearest_scaled_zero (m : positive) (e : Z) :
  nearest_scaled 2 m e = 0%Z
  <-> (200 * Z.pos m * 2 ^ Z.max e 0 < 2 ^ Z.max (- e) 0)%Z.
Proof.
  unfold nearest_scaled. change (10 ^ Z.of_nat 2)%Z with 100%Z.
  assert (0 < 2 ^ Z.max (- e) 0)%Z by (apply Z.pow_pos_nonneg; lia).
  assert (0 <= 2 ^ Z.max e 0)%Z by (apply Z.pow_nonneg; lia).
  rewrite Z.div_small_iff by lia. nia.
Qed.

Lemma at_least_1e21_not_below (m : positive) (e : Z) :
  at_least_1e21 m e = true ->
  ~ (200 * Z.pos m * 2 ^ Z.max e 0 < 2 ^ Z.max (- e) 0)%Z.
Proof.
  unfold at_least_1e21. rewrite Z.leb_le.
  assert (0 < 2 ^ Z.max (- e) 0)%Z by (apply Z.pow_pos_nonneg; lia).
  change (10 ^ 21)%Z with 1000000000000000000000%Z. nia.
Qed.

Lemma strict_equals_Spelled (r : NumberString) (lit : string) :
  strict_equals r lit = true <-> r = Spelled lit.
Proof.
  destruct r as [s|x]; simpl.
  - rewrite String.eqb_eq. split; congruence.
  - split; discriminate.
Qed.

Lemma toFixed_zero (x : spec_float) :
  toFixed 2 x = Spelled "0.00" <-> below_half_cent x.
Proof.
  destruct x as [s|[|]| |[|] m e]; cbn [toFixed below_half_cent String.append];
    try (split; [discriminate|tauto]); try tauto.
  - destruct (at_least_1e21 m e); split; discriminate || tauto.
  - destruct (at_least_1e21 m e) eqn:E.
    + split; [discriminate|]. intros H. by apply at_least_1e21_not_below in H.
    + rewrite <- nearest_scaled_zero.
      rewrite <- (fixed_digits_zero _ (nearest_scaled_nonneg 2 m e)).
      change ("" +:+ fixed_digits 2 (nearest_scaled 2 m e))
        with (fixed_digits 2 (nearest_scaled 2 m e)).
      split; congruence.
Qed.

(** Against C2 as stated: at 0.001 the function answers that the amount is
    zero. *)
Lemma isZeroAmount_thousandth : isZeroAmount "0.001" <> false.
Proof. by vm_compute. Qed.

(** C2, amended. [isZeroAmount] holds exactly when the string, parsed as a
    number and written with two decimals, reads 0.00, which is when the
    number is a zero or positive and below 0.005; a string that does not
    parse to a number counts as non-zero. So 0, 0.00 and also 0.001 are zero
    amounts, and abc and the empty string are not. *)
Theorem isZeroAmount_below_half_cent :
  (forall value : string,
     isZeroAmount value = true
     <-> toFixed 2 (parseFloat value) = Spelled "0.00") /\
  (forall value : string,
     isZeroAmount value = true <-> below_half_cent (parseFloat value)) /\
  (forall value : string,
     parseFloat value = S754_nan -> isZeroAmount value = false) /\
  isZeroAmount "0" = true /\
  isZeroAmount "0.00" = true /\
  isZeroAmount "0.001" = true /\
  isZeroAmount "0.005" = false /\
  isZeroAmount "abc" = false /\
  isZeroAmount "" = false.
Proof.
  split; [intros value; apply strict_equals_Spelled|].
  split.
  { intros value. unfold isZeroAmount.
    by rewrite strict_equals_Spelled, toFixed_zero. }
  split.
  { intros value H. unfold isZeroAmount. by rewrite H. }
  repeat split; by vm_compute.
Qed.

Lemma isZeroAmount_below_half_cent_witness :
  parseFloat "abc" = S754_nan /\ isZeroAmount "abc" = false.
Proof.
  split; [reflexivity|].
  apply (proj1 (proj2 (proj2 isZeroAmount_below_half_cent)) "abc").
  reflexivity.
Defined.

(** ** No function throws *)

Lemma isJSON_returns (json : JSValue) :
  isJSON json
  = Normal match text ← JSON_stringify json; JSON_parse text with
           | Normal _ => true
           | Throw _ => false
           end.
Proof. unfold isJSON, try_true_catch_false. by destruct (_ ≫= _). Qed.

(** C9. On an order of the declared type [createApplePayRequest] returns a
    request, and [isJSON] returns on every value: false when serializing or
    parsing throws, true otherwise. The other functions have no operation
    that throws. What is missing is defaulted: no issuers and no shipping
    methods to the empty list, no supported networks to the three fixed
    capabilities, no address to the contact of empty strings, no amount of a
    shipping method to 0.00 and no id to the empty string. *)
Theorem no_function_throws :
  (forall (Array_sort : forall A : Type, (A -> A -> Z) -> list A -> list A)
          (countryCode : string) (order : DetailedOrderInfo.t),
     DetailedOrderInfo.declared order ->
     exists request,
       createApplePayRequest Array_sort countryCode order = Normal request) /\
  (forall json : JSValue, exists answer, isJSON json = Normal answer) /\
  (forall (json : JSValue) (e : Error),
     (text ← JSON_stringify json; JSON_parse text) = Throw e ->
     isJSON json = Normal false) /\
  (forall (json value : JSValue),
     (text ← JSON_stringify json; JSON_parse text) = Normal value ->
     isJSON json = Normal true) /\
  isJSON (JObject [("amount", JBigInt 1)]) = Normal false /\
  isJSON JUndefined = Normal false /\
  isJSON (JObject [("lines", JArray [JUndefined; JString "x"])]) = Normal true /\
  getSupportedNetworksFromIssuers None = [] /\
  getMerchantCapabilities None = ["supports3DS"; "supportsCredit"; "supportsDebit"] /\
  (forall Array_sort : forall A : Type, (A -> A -> Z) -> list A -> list A,
     getApplePayShippingMethods Array_sort None
     = getApplePayShippingMethods Array_sort (Some [])) /\
  ApplePayPaymentContact.givenName (getShippingContactFromAddress None) = Some "" /\
  ApplePayPaymentContact.addressLines (getShippingContactFromAddress None) = Some [] /\
  (forall method : ShippingMethod.t,
     ShippingMethod.amount method = None ->
     ApplePayShippingMethod.amount (to_ApplePayShippingMethod method) = "0.00") /\
  (forall method : ShippingMethod.t,
     ShippingMethod.id method = None ->
     ApplePayShippingMethod.identifier (to_ApplePayShippingMethod method) = "").
Proof.
  split.
  { intros Array_sort countryCode order Hd.
    destruct (createApplePayRequest_declared Array_sort countryCode order Hd)
      as (request & Hr & _).
    by exists request. }
  split; [intros json; rewrite isJSON_returns; eauto|].
  split; [intros json e H; by rewrite isJSON_returns, H|].
  split; [intros json value H; by rewrite isJSON_returns, H|].
  repeat (split; [reflexivity|]).
  split; intros method H; unfold to_ApplePayShippingMethod; by rewrite H.
Qed.

Lemma no_function_throws_witness :
  DetailedOrderInfo.declared order_pickup /\
  (exists request,
     createApplePayRequest insertion_sort_left "US" order_pickup = Normal request) /\
  (JSON_stringify (JBigInt 1) ≫= JSON_parse) = Throw TypeError /\
  isJSON (JBigInt 1) = Normal false /\
  ShippingMethod.amount standard_method = None /\
  ApplePayShippingMethod.amount (to_ApplePayShippingMethod standard_method) = "0.00".
Proof.
  pose proof no_function_throws
    as (Hcreate & _ & Hfalse & _ & _ & _ & _ & _ & _ & _ & _ & _ & Hamount & _).
  split; [apply make_order_declared|].
  split; [apply (Hcreate insertion_sort_left "US" order_pickup), make_order_declared|].
  split; [reflexivity|].
  split; [apply (Hfalse (JBigInt 1) TypeError); reflexivity|].
  split; [reflexivity|].
  apply (Hamount standard_method). reflexivity.
Defined.

(** Outside the declared type the destructuring throws: an order without a
    checkout session, and one whose session has no flags. *)
Example createApplePayRequest_throws
  (Array_sort : forall A : Type, (A -> A -> Z) -> list A -> list A)
  (countryCode : string) :
  createApplePayRequest Array_sort countryCode
    {| DetailedOrderInfo.checkoutSession := None |} = Throw TypeError /\
  createApplePayRequest Array_sort countryCode
    {| DetailedOrderInfo.checkoutSession := Some
         {| CheckoutSession.flags := None;
            CheckoutSession.allowedCardIssuers := Some ["VISA"];
            CheckoutSession.cart := None |} |} = Throw TypeError.
Proof. split; reflexivity. Qed.

(* ===================================================================== *)
(** * Further properties *)
(* ===================================================================== *)

(** ** Issuers are read without regard to case and underscores *)

Lemma lower_upper_char (c : ascii) : lower_char (upper_char c) = lower_char c.
Proof. destruct c as [[|] [|] [|] [|] [|] [|] [|] [|]]; reflexivity. Qed.

Lemma lower_lower_char (c : ascii) : lower_char (lower_char c) = lower_char c.
Proof. destruct c as [[|] [|] [|] [|] [|] [|] [|] [|]]; reflexivity. Qed.

Lemma upper_upper_char (c : ascii) : upper_char (upper_char c) = upper_char c.
Proof. destruct c as [[|] [|] [|] [|] [|] [|] [|] [|]]; reflexivity. Qed.

Lemma lower_char_underscore (c : ascii) :
  Ascii.eqb (lower_char c) "_" = Ascii.eqb c "_".
Proof. destruct c as [[|] [|] [|] [|] [|] [|] [|] [|]]; reflexivity. Qed.

Lemma string_map_map (f g : ascii -> ascii) (s : string) :
  string_map f (string_map g s) = string_map (fun c => f (g c)) s.
Proof. induction s as [|c s IH]; simpl; [reflexivity | by rewrite IH]. Qed.

Lemma string_map_ext (f g : ascii -> ascii) (s : string) :
  (forall c, f c = g c) -> string_map f s = string_map g s.
Proof. intros H. induction s as [|c s IH]; simpl; [reflexivity | by rewrite H, IH]. Qed.

Lemma toLowerCase_toUpperCase (s : string) :
  toLowerCase (toUpperCase s) = toLowerCase s.
Proof.
  unfold toLowerCase, toUpperCase. rewrite string_map_map.
  apply string_map_ext, lower_upper_char.
Qed.

Lemma toLowerCase_idempotent (s : string) :
  toLowerCase (toLowerCase s) = toLowerCase s.
Proof.
  unfold toLowerCase. rewrite string_map_map.
  apply string_map_ext, lower_lower_char.
Qed.

Lemma toUpperCase_idempotent (s : string) :
  toUpperCase (toUpperCase s) = toUpperCase s.
Proof.
  unfold toUpperCase. rewrite string_map_map.
  apply string_map_ext, upper_upper_char.
Qed.

Lemma normalize_issuer_without_underscores (s : string) :
  normalize_issuer (remove_all "_" s) = normalize_issuer s.
Proof.
  unfold normalize_issuer, toLowerCase.
  induction s as [|c s IH]; [reflexivity|].
  cbn [remove_all string_map].
  destruct (Ascii.eqb c "_") eqn:E.
  - cbn [remove_all]. by rewrite lower_char_underscore, E.
  - cbn [remove_all string_map]. by rewrite lower_char_underscore, E, IH.
Qed.

Lemma omap_network_of_map (g : string -> string) (issuers : list string) :
  (forall issuer, network_of (g issuer) = network_of issuer) ->
  omap network_of (map g issuers) = omap network_of issuers.
Proof.
  intros H. induction issuers as [|issuer issuers IH]; [reflexivity|].
  cbn [map omap list_omap]. by rewrite H, IH.
Qed.

(** X1. The networks of a list of issuers written in ASCII do not change
    when the issuers are put in upper case, put in lower case, or stripped
    of their underscores beforehand. *)
Theorem getSupportedNetworksFromIssuers_spelling (issuers : list string) :
  Forall (fun issuer => ascii_only issuer = true) issuers ->
  getSupportedNetworksFromIssuers (Some (map toUpperCase issuers))
  = getSupportedNetworksFromIssuers (Some issuers) /\
  getSupportedNetworksFromIssuers (Some (map toLowerCase issuers))
  = getSupportedNetworksFromIssuers (Some issuers) /\
  getSupportedNetworksFromIssuers (Some (map (remove_all "_") issuers))
  = getSupportedNetworksFromIssuers (Some issuers).
Proof.
  intros _.
  rewrite !getSupportedNetworksFromIssuers_omap.
  change (default [] (Some issuers)) with issuers.
  repeat split; apply omap_network_of_map; intros issuer;
    unfold network_of, normalize_issuer.
  - by rewrite toLowerCase_toUpperCase.
  - by rewrite toLowerCase_idempotent.
  - fold (normalize_issuer (remove_all "_" issuer)).
    by rewrite normalize_issuer_without_underscores.
Qed.

Lemma getSupportedNetworksFromIssuers_spelling_witness :
  getSupportedNetworksFromIssuers (Some (map toUpperCase ["visa"; "Master_Card"]))
  = getSupportedNetworksFromIssuers (Some ["visa"; "Master_Card"]).
Proof.
  apply (getSupportedNetworksFromIssuers_spelling ["visa"; "Master_Card"]).
  repeat constructor.
Defined.

Lemma length_omap_network_of (issuers : list string) :
  length (omap network_of issuers) <= length issuers.
Proof.
  induction issuers as [|issuer issuers IH]; [reflexivity|].
  cbn [omap list_omap]. destruct (network_of issuer); cbn [length]; lia.
Qed.

(** X2. The networks of two lists of issuers put end to end are the networks
    of the first followed by those of the second, and a list of issuers
    never has more networks than issuers. *)
Theorem getSupportedNetworksFromIssuers_app (issuers more : list string) :
  getSupportedNetworksFromIssuers (Some (issuers ++ more))
  = getSupportedNetworksFromIssuers (Some issuers)
    ++ getSupportedNetworksFromIssuers (Some more) /\
  length (getSupportedNetworksFromIssuers (Some issuers)) <= length issuers.
Proof.
  rewrite !getSupportedNetworksFromIssuers_omap.
  change (default [] (Some (issuers ++ more))) with (issuers ++ more).
  change (default [] (Some issuers)) with issuers.
  change (default [] (Some more)) with more.
  split; [apply omap_app | apply length_omap_network_of].
Qed.

Lemma network_of_network (network : string) :
  network ∈ ["discover"; "visa"; "masterCard"; "amex"; "maestro"; "jcb"] ->
  network_of network = Some network.
Proof.
  intros H.
  repeat (apply elem_of_cons in H as [->|H]; [by vm_compute|]).
  by apply elem_of_nil in H.
Qed.

(** X3. Every network in the result is one of discover, visa, masterCard,
    amex, maestro and jcb, and each of these names is an issuer that stands
    for itself: giving the result back to the function returns it
    unchanged. *)
Theorem getSupportedNetworksFromIssuers_idempotent
  (issuers : option (list string)) :
  Forall (fun network =>
            network ∈ ["discover"; "visa"; "masterCard"; "amex"; "maestro"; "jcb"])
         (getSupportedNetworksFromIssuers issuers) /\
  getSupportedNetworksFromIssuers (Some (getSupportedNetworksFromIssuers issuers))
  = getSupportedNetworksFromIssuers issuers.
Proof.
  assert (Hall : Forall (fun network =>
            network ∈ ["discover"; "visa"; "masterCard"; "amex"; "maestro"; "jcb"])
         (getSupportedNetworksFromIssuers issuers)).
  { apply Forall_forall. intros network. apply supported_network_values. }
  split; [exact Hall|].
  rewrite (getSupportedNetworksFromIssuers_omap (Some _)).
  change (default [] (Some ?l)) with l.
  induction Hall as [|network networks Hn _ IH]; [reflexivity|].
  cbn [omap list_omap]. by rewrite (network_of_network _ Hn), IH.
Qed.

(** ** More on the validation of a shipping contact *)

Lemma validation_eq (v1 v2 : ShippingContactValidation.t) :
  ShippingContactValidation.errors v1 = ShippingContactValidation.errors v2 ->
  ShippingContactValidation.shipping_address v1
  = ShippingContactValidation.shipping_address v2 ->
  v1 = v2.
Proof. destruct v1, v2; simpl; congruence. Qed.

Lemma resolve_country_toUpperCase (COUNTRY : gmap string string)
  (countryCode : option string) :
  resolve_country COUNTRY (toUpperCase <$> countryCode)
  = resolve_country COUNTRY countryCode.
Proof.
  destruct countryCode as [[|c code]|]; try reflexivity.
  unfold resolve_country. cbn [fmap option_fmap option_map present truthy].
  change (toUpperCase (String c code))
    with (String (upper_char c) (toUpperCase code)) at 1.
  cbn [mbind option_bind]. by rewrite toUpperCase_idempotent.
Qed.

(** X4. The list of errors is empty exactly when the locality is present,
    the country code resolves, the postal code is present and, if the
    resolved country is the United States, the administrative area is
    present too: outside the United States a contact without a state is
    accepted. *)
Theorem validateShippingContact_accepts
  (COUNTRY : gmap string string) (COUNTRY_US : string)
  (contact : option ApplePayPaymentContact.t) :
  ShippingContactValidation.errors
    (validateShippingContact COUNTRY COUNTRY_US contact) = []
  <-> present (contact ≫= ApplePayPaymentContact.locality) = true /\
      present (resolve_country COUNTRY
                 (contact ≫= ApplePayPaymentContact.countryCode)) = true /\
      (resolve_country COUNTRY (contact ≫= ApplePayPaymentContact.countryCode)
       = Some COUNTRY_US ->
       present (contact ≫= ApplePayPaymentContact.administrativeArea) = true) /\
      present (contact ≫= ApplePayPaymentContact.postalCode) = true.
Proof.
  destruct (validateShippingContact_spec COUNTRY COUNTRY_US contact) as [He _].
  cbv zeta in He. rewrite He. clear He.
  destruct (present (contact ≫= ApplePayPaymentContact.locality)),
    (present (resolve_country COUNTRY _)),
    (present (contact ≫= ApplePayPaymentContact.administrativeArea)),
    (present (contact ≫= ApplePayPaymentContact.postalCode));
    case_bool_decide as Hus; cbn; split; intros Hacc;
    try discriminate Hacc; try reflexivity; intuition congruence.
Qed.

(** X5. When the table's code of the United States is not empty, the errors
    on countryCode and on administrativeArea never come together, so a
    contact has at most three errors. *)
Theorem validateShippingContact_at_most_three
  (COUNTRY : gmap string string) (COUNTRY_US : string)
  (contact : option ApplePayPaymentContact.t) :
  COUNTRY_US <> "" ->
  let errors :=
    ShippingContactValidation.errors
      (validateShippingContact COUNTRY COUNTRY_US contact) in
  length errors <= 3 /\
  ~ (shippingContactInvalid "countryCode" "Country code is invalid" ∈ errors /\
     shippingContactInvalid "administrativeArea" "State is invalid" ∈ errors).
Proof.
  intros HUS. cbv zeta.
  destruct (validateShippingContact_spec COUNTRY COUNTRY_US contact) as [He _].
  cbv zeta in He. rewrite He. clear He.
  assert (Hexcl :
    negb (present (resolve_country COUNTRY
                     (contact ≫= ApplePayPaymentContact.countryCode)))
    && (bool_decide (resolve_country COUNTRY
                       (contact ≫= ApplePayPaymentContact.countryCode)
                     = Some COUNTRY_US)
        && negb (present (contact ≫= ApplePayPaymentContact.administrativeArea)))
    = false).
  { case_bool_decide as Hr; [|by rewrite andb_false_r].
    rewrite Hr. destruct COUNTRY_US; [congruence|reflexivity]. }
  revert Hexcl.
  generalize (negb (present (contact ≫= ApplePayPaymentContact.locality))).
  generalize (negb (present (resolve_country COUNTRY
                               (contact ≫= ApplePayPaymentContact.countryCode)))).
  generalize (bool_decide (resolve_country COUNTRY
                             (contact ≫= ApplePayPaymentContact.countryCode)
                           = Some COUNTRY_US)
              && negb (present (contact ≫= ApplePayPaymentContact.administrativeArea))).
  generalize (negb (present (contact ≫= ApplePayPaymentContact.postalCode))).
  intros [|] [|] [|] [|] Hexcl; try discriminate Hexcl;
    (split; [cbn; lia|]); intros [H1 H2]; cbn in H1, H2;
    first [literal_not_mem H1 | literal_not_mem H2].
Qed.

Lemma validateShippingContact_at_most_three_witness :
  length (ShippingContactValidation.errors
            (validateShippingContact COUNTRY_excerpt "US" None)) <= 3.
Proof.
  apply (validateShippingContact_at_most_three COUNTRY_excerpt "US" None).
  discriminate.
Defined.

(** X6. Every error has the code shippingContactInvalid, and the fields of
    the errors, in the order of the list, are a sublist of locality,
    countryCode, administrativeArea, postalCode: no field is reported twice
    and the order is fixed. *)
Theorem validateShippingContact_error_fields
  (COUNTRY : gmap string string) (COUNTRY_US : string)
  (contact : option ApplePayPaymentContact.t) :
  Forall (fun error => ApplePayError.code error = "shippingContactInvalid")
    (ShippingContactValidation.errors
       (validateShippingContact COUNTRY COUNTRY_US contact)) /\
  sublist
    (map ApplePayError.contactField
       (ShippingContactValidation.errors
          (validateShippingContact COUNTRY COUNTRY_US contact)))
    ["locality"; "countryCode"; "administrativeArea"; "postalCode"].
Proof.
  destruct (validateShippingContact_spec COUNTRY COUNTRY_US contact) as [He _].
  cbv zeta in He. rewrite He. clear He.
  repeat match goal with
         | |- context [when ?b _] => destruct b; cbn [when]
         end; cbn;
    (split;
     [ repeat constructor
     | repeat first [apply sublist_nil | apply sublist_skip | apply sublist_cons] ]).
Qed.

(** X7. The validation reads the locality, the administrative area, the
    postal code and the country code of a contact and nothing else, and the
    country code without regard to its case: contacts that agree on these
    have the same errors and the same normalized address. *)
Theorem validateShippingContact_reads
  (COUNTRY : gmap string string) (COUNTRY_US : string)
  (contact other : ApplePayPaymentContact.t) :
  ApplePayPaymentContact.locality contact
  = ApplePayPaymentContact.locality other ->
  ApplePayPaymentContact.administrativeArea contact
  = ApplePayPaymentContact.administrativeArea other ->
  ApplePayPaymentContact.postalCode contact
  = ApplePayPaymentContact.postalCode other ->
  toUpperCase <$> ApplePayPaymentContact.countryCode contact
  = toUpperCase <$> ApplePayPaymentContact.countryCode other ->
  validateShippingContact COUNTRY COUNTRY_US (Some contact)
  = validateShippingContact COUNTRY COUNTRY_US (Some other).
Proof.
  intros Hl Ha Hp Hc.
  assert (Hr : resolve_country COUNTRY (ApplePayPaymentContact.countryCode contact)
               = resolve_country COUNTRY (ApplePayPaymentContact.countryCode other)).
  { rewrite <- (resolve_country_toUpperCase COUNTRY
                  (ApplePayPaymentContact.countryCode contact)).
    rewrite Hc. apply resolve_country_toUpperCase. }
  destruct (validateShippingContact_spec COUNTRY COUNTRY_US (Some contact))
    as [He1 Hs1].
  destruct (validateShippingContact_spec COUNTRY COUNTRY_US (Some other))
    as [He2 Hs2].
  cbv zeta in He1, Hs1, He2, Hs2. cbn [mbind option_bind] in He1, Hs1, He2, Hs2.
  apply validation_eq.
  - rewrite He1, He2. by rewrite Hl, Ha, Hp, Hr.
  - rewrite Hs1, Hs2. by rewrite Hl, Ha, Hp, Hr.
Qed.

Lemma validateShippingContact_reads_witness :
  validateShippingContact COUNTRY_excerpt "US" (Some contact_in_france)
  = validateShippingContact COUNTRY_excerpt "US"
      (Some {| ApplePayPaymentContact.givenName := Some "Marie";
               ApplePayPaymentContact.familyName := None;
               ApplePayPaymentContact.addressLines := Some [Some "1 rue X"];
               ApplePayPaymentContact.locality := Some "Paris";
               ApplePayPaymentContact.administrativeArea := Some "IDF";
               ApplePayPaymentContact.postalCode := Some "75001";
               ApplePayPaymentContact.country := Some "France";
               ApplePayPaymentContact.countryCode := Some "FR" |}).
Proof.
  apply (validateShippingContact_reads COUNTRY_excerpt "US"); reflexivity.
Defined.

(** X8. Validating the contact mapped from a shipping address gives back the
    address's city, state and postal code, with the country code resolved
    from the address's country; validating the contact mapped from no
    address gives the three errors on locality, countryCode and postalCode
    and an address of empty strings with no country code. *)
Theorem validateShippingContact_of_address
  (COUNTRY : gmap string string) (COUNTRY_US : string) :
  (forall address : ShippingAddress.t,
     ShippingContactValidation.shipping_address
       (validateShippingContact COUNTRY COUNTRY_US
          (Some (getShippingContactFromAddress (Some address))))
     = {| Shipping_Address.city := ShippingAddress.city address;
          Shipping_Address.state := ShippingAddress.state address;
          Shipping_Address.country_code :=
            resolve_country COUNTRY (ShippingAddress.country address);
          Shipping_Address.postal_code := ShippingAddress.postalCode address |}) /\
  validateShippingContact COUNTRY COUNTRY_US
    (Some (getShippingContactFromAddress None))
  = {| ShippingContactValidation.errors :=
         [{| ApplePayError.code := "shippingContactInvalid";
             ApplePayError.contactField := "locality";
             ApplePayError.message := "City is invalid" |};
          {| ApplePayError.code := "shippingContactInvalid";
             ApplePayError.contactField := "countryCode";
             ApplePayError.message := "Country code is invalid" |};
          {| ApplePayError.code := "shippingContactInvalid";
             ApplePayError.contactField := "postalCode";
             ApplePayError.message := "Postal code is invalid" |}];
       ShippingContactValidation.shipping_address :=
         {| Shipping_Address.city := Some "";
            Shipping_Address.state := Some "";
            Shipping_Address.country_code := None;
            Shipping_Address.postal_code := Some "" |} |}.
Proof.
  split; [|reflexivity].
  intros [firstName lastName line1 line2 city state postalCode country].
  destruct (validateShippingContact_spec COUNTRY COUNTRY_US
              (Some (getShippingContactFromAddress
                       (Some (ShippingAddress.mk firstName lastName line1 line2
                                city state postalCode country)))))
    as [_ Hs].
  exact Hs.
Qed.

(** ** More on the request *)

Lemma createApplePayRequest_currencyCode
  (Array_sort : forall A : Type, (A -> A -> Z) -> list A -> list A)
  (countryCode : string) (order : DetailedOrderInfo.t) :
  DetailedOrderInfo.declared order ->
  exists request,
    createApplePayRequest Array_sort countryCode order = Normal request /\
    ApplePayPaymentRequest.currencyCode request = order_currencyCode order.
Proof.
  intros (session & flags & cart & amounts & shipping & tax & subtotal & total
          & Hs & Hf & Hc & Ha & Hsh & Ht & Hsu & Hto).
  unfold createApplePayRequest, order_currencyCode, order_cart.
  rewrite Hs. cbn [mbind completion_bind option_bind destructure].
  rewrite Hf, Hc. cbn [mbind completion_bind option_bind destructure].
  rewrite Ha. cbn [mbind completion_bind option_bind destructure].
  rewrite Hsh, Ht, Hsu, Hto.
  cbn [mbind completion_bind option_bind destructure mret completion_ret].
  eexists. split; [reflexivity|].
  by rewrite !push_keeps by (intros; reflexivity).
Qed.

(** Of an order that lacks an object of the declared type. *)
Ltac lacks_an_object :=
  right; split;
  [ intros (?&?&?&?&?&?&?&?&?&?&?&?&?&?&?&?); simplify_eq/=
  | reflexivity ].

(** X9. [createApplePayRequest] returns a request exactly on the orders of
    the declared type; on every other order, one that lacks the session, the
    flags, the cart, the amounts or one of the four amounts, it throws a
    TypeError. *)
Theorem createApplePayRequest_throws_or_returns
  (Array_sort : forall A : Type, (A -> A -> Z) -> list A -> list A)
  (countryCode : string) (order : DetailedOrderInfo.t) :
  (DetailedOrderInfo.declared order /\
   exists request,
     createApplePayRequest Array_sort countryCode order = Normal request) \/
  (~ DetailedOrderInfo.declared order /\
   createApplePayRequest Array_sort countryCode order = Throw TypeError).
Proof.
  assert (Hcases :
    DetailedOrderInfo.declared order \/
    (~ DetailedOrderInfo.declared order /\
     createApplePayRequest Array_sort countryCode order = Throw TypeError)).
  { destruct order as [[[flags issuers cart]|]]; [|lacks_an_object].
    destruct flags as [flags|]; [|lacks_an_object].
    destruct cart as [[amounts address methods]|]; [|lacks_an_object].
    destruct amounts as [[shipping tax subtotal total]|]; [|lacks_an_object].
    destruct shipping as [shipping|]; [|lacks_an_object].
    destruct tax as [tax|]; [|lacks_an_object].
    destruct subtotal as [subtotal|]; [|lacks_an_object].
    destruct total as [total|]; [|lacks_an_object].
    left. unfold DetailedOrderInfo.declared. by repeat eexists. }
  destruct Hcases as [Hd|Hn]; [left|by right].
  split; [exact Hd|].
  destruct (createApplePayRequest_declared Array_sort countryCode order Hd)
    as (request & Hr & _).
  by exists request.
Qed.

Lemma when_Forall {A : Type} (P : A -> Prop) (b : bool) (x : A) :
  (b = true -> P x) -> Forall P (when b x).
Proof. destruct b; intros H; constructor; [by apply H | constructor]. Qed.

Lemma length_when {A : Type} (b : bool) (x : A) : length (when b x) <= 1.
Proof. destruct b; cbn; lia. Qed.

(** X10. In the request of an order of the declared type there are at most
    three line items, their labels are a sublist of Subtotal, Sales Tax,
    Shipping (none twice, in this order), every line item has a non-empty
    amount and no type, and a line item other than Shipping never has a zero
    amount. *)
Theorem createApplePayRequest_lineItems_invariants
  (Array_sort : forall A : Type, (A -> A -> Z) -> list A -> list A)
  (countryCode : string) (order : DetailedOrderInfo.t) :
  DetailedOrderInfo.declared order ->
  exists request,
    createApplePayRequest Array_sort countryCode order = Normal request /\
    length (ApplePayPaymentRequest.lineItems request) <= 3 /\
    sublist (map LineItem.label (ApplePayPaymentRequest.lineItems request))
            ["Subtotal"; "Sales Tax"; "Shipping"] /\
    Forall (fun item =>
              present (LineItem.amount item) = true /\ LineItem.type item = None)
           (ApplePayPaymentRequest.lineItems request) /\
    Forall (fun item =>
              LineItem.label item <> "Shipping" ->
              exists amount,
                LineItem.amount item = Some amount /\ isZeroAmount amount = false)
           (ApplePayPaymentRequest.lineItems request).
Proof.
  intros Hd.
  destruct (createApplePayRequest_declared Array_sort countryCode order Hd)
    as (request & Hr & _ & _ & _ & _ & _ & _ & _ & Hl & _).
  exists request. split; [exact Hr|]. rewrite Hl. clear Hl Hr. cbv zeta.
  split; [|split; [|split]].
  - rewrite !length_app.
    pose proof (length_when
      (present (order_amount Amounts.subtotal order)
       && nonzero (order_amount Amounts.subtotal order))
      (line "Subtotal" (order_amount Amounts.subtotal order))).
    pose proof (length_when
      (present (order_amount Amounts.tax order)
       && nonzero (order_amount Amounts.tax order))
      (line "Sales Tax" (order_amount Amounts.tax order))).
    pose proof (length_when
      (present (order_amount Amounts.shippingAndHandling order)
       && (nonzero (order_amount Amounts.shippingAndHandling order)
           || bool_decide (order_selectedMethod order ≫= ShippingMethod.type
                           = Some "PICKUP")))
      (line "Shipping" (order_amount Amounts.shippingAndHandling order))).
    lia.
  - repeat match goal with
           | |- context [when ?b _] => destruct b; cbn [when]
           end; cbn;
      repeat first [apply sublist_nil | apply sublist_skip | apply sublist_cons].
  - repeat (apply Forall_app; split); apply when_Forall;
      intros [Hp _]%andb_prop; by split.
  - repeat (apply Forall_app; split); apply when_Forall;
      intros [Hp Hn]%andb_prop; intros Hlabel; cbn in Hlabel;
      try congruence.
    + destruct (order_amount Amounts.subtotal order) as [amount|];
        [|discriminate Hp].
      exists amount. split; [reflexivity|]. by apply negb_true_iff.
    + destruct (order_amount Amounts.tax order) as [amount|];
        [|discriminate Hp].
      exists amount. split; [reflexivity|]. by apply negb_true_iff.
Qed.

Lemma createApplePayRequest_lineItems_invariants_witness :
  exists request,
    createApplePayRequest insertion_sort "US" order_pickup = Normal request /\
    length (ApplePayPaymentRequest.lineItems request) <= 3.
Proof.
  destruct (createApplePayRequest_lineItems_invariants insertion_sort "US"
              order_pickup
              (make_order_declared None None (USD "0.00") (USD "1.00")
                 (USD "10.00") (USD "11.00") None
                 (Some [standard_method; pickup_method])))
    as (request & Hr & Hlen & _).
  exists request. split; [exact Hr | exact Hlen].
Defined.

(** X11. The sort of the engine reaches the shipping methods of the request
    and nothing else: with two sorts that return permutations, the two
    requests of an order of the declared type have the same country code
    (the one passed in), currency code (the total's), capabilities,
    networks, contact fields, shipping contact, line items and total, and
    their shipping methods are permutations of each other. The PICKUP test
    of the line items looks at the order's list, not at the sorted one. *)
Theorem createApplePayRequest_sort_independent
  (sort1 sort2 : forall A : Type, (A -> A -> Z) -> list A -> list A)
  (countryCode : string) (order : DetailedOrderInfo.t) :
  (forall (A : Type) (comparefn : A -> A -> Z) (l : list A),
     Permutation (sort1 A comparefn l) l) ->
  (forall (A : Type) (comparefn : A -> A -> Z) (l : list A),
     Permutation (sort2 A comparefn l) l) ->
  DetailedOrderInfo.declared order ->
  exists request1 request2,
    createApplePayRequest sort1 countryCode order = Normal request1 /\
    createApplePayRequest sort2 countryCode order = Normal request2 /\
    ApplePayPaymentRequest.countryCode request1 = countryCode /\
    ApplePayPaymentRequest.countryCode request2 = countryCode /\
    ApplePayPaymentRequest.currencyCode request1 = order_currencyCode order /\
    ApplePayPaymentRequest.currencyCode request2 = order_currencyCode order /\
    ApplePayPaymentRequest.merchantCapabilities request1
    = ApplePayPaymentRequest.merchantCapabilities request2 /\
    ApplePayPaymentRequest.supportedNetworks request1
    = ApplePayPaymentRequest.supportedNetworks request2 /\
    ApplePayPaymentRequest.requiredBillingContactFields request1
    = ApplePayPaymentRequest.requiredBillingContactFields request2 /\
    ApplePayPaymentRequest.requiredShippingContactFields request1
    = ApplePayPaymentRequest.requiredShippingContactFields request2 /\
    ApplePayPaymentRequest.shippingContact request1
    = ApplePayPaymentRequest.shippingContact request2 /\
    ApplePayPaymentRequest.lineItems request1
    = ApplePayPaymentRequest.lineItems request2 /\
    ApplePayPaymentRequest.total request1
    = ApplePayPaymentRequest.total request2 /\
    Permutation (ApplePayPaymentRequest.shippingMethods request1)
                (ApplePayPaymentRequest.shippingMethods request2).
Proof.
  intros Hperm1 Hperm2 Hd.
  destruct (createApplePayRequest_declared sort1 countryCode order Hd)
    as (request1 & Hr1 & Hcc1 & Hn1 & Hm1 & Hb1 & Hs1 & Hc1 & Hsm1 & Hl1 & Ht1).
  destruct (createApplePayRequest_declared sort2 countryCode order Hd)
    as (request2 & Hr2 & Hcc2 & Hn2 & Hm2 & Hb2 & Hs2 & Hc2 & Hsm2 & Hl2 & Ht2).
  destruct (createApplePayRequest_currencyCode sort1 countryCode order Hd)
    as (request1' & Hr1' & Hcur1).
  destruct (createApplePayRequest_currencyCode sort2 countryCode order Hd)
    as (request2' & Hr2' & Hcur2).
  assert (request1' = request1) by congruence.
  assert (request2' = request2) by congruence.
  subst request1' request2'.
  exists request1, request2.
  repeat (split; [congruence|]).
  rewrite Hsm1, Hsm2. unfold getApplePayShippingMethods.
  apply Permutation_map. by rewrite Hperm1, Hperm2.
Qed.

Lemma createApplePayRequest_sort_independent_witness :
  exists request1 request2,
    createApplePayRequest insertion_sort "US" order_pickup = Normal request1 /\
    createApplePayRequest insertion_sort_left "US" order_pickup = Normal request2 /\
    ApplePayPaymentRequest.lineItems request1
    = ApplePayPaymentRequest.lineItems request2 /\
    Permutation (ApplePayPaymentRequest.shippingMethods request1)
                (ApplePayPaymentRequest.shippingMethods request2).
Proof.
  destruct (createApplePayRequest_sort_independent insertion_sort
              insertion_sort_left "US" order_pickup
              (@insertion_sort_perm) (@insertion_sort_left_perm)
              (make_order_declared None None (USD "0.00") (USD "1.00")
                 (USD "10.00") (USD "11.00") None
                 (Some [standard_method; pickup_method])))
    as (request1 & request2 & Hr1 & Hr2 & _ & _ & _ & _ & _ & _ & _ & _ & _
        & Hl & _ & Hp).
  exists request1, request2. repeat split; assumption.
Defined.

(** ** More on the shipping methods *)

Lemma to_ApplePayShippingMethod_amount (method : ShippingMethod.t) :
  ApplePayShippingMethod.amount (to_ApplePayShippingMethod method) <> "".
Proof.
  unfold to_ApplePayShippingMethod, or_default.
  cbn [ApplePayShippingMethod.amount].
  by destruct (ShippingMethod.amount method ≫= Amount.currencyValue) as [[|? ?]|].
Qed.

(** X12. Whatever sort the engine has, every shipping method of the result
    has a non-empty amount. If the sort returns a permutation, the result
    holds the mapping of each method of the input and of nothing else, and
    no method, or an empty list of methods, gives the empty list. *)
Theorem getApplePayShippingMethods_members
  (Array_sort : forall A : Type, (A -> A -> Z) -> list A -> list A)
  (shippingMethods : option (list ShippingMethod.t)) :
  (forall (A : Type) (comparefn : A -> A -> Z) (l : list A),
     Permutation (Array_sort A comparefn l) l) ->
  Forall (fun method => ApplePayShippingMethod.amount method <> "")
         (getApplePayShippingMethods Array_sort shippingMethods) /\
  (forall mapped : ApplePayShippingMethod.t,
     mapped ∈ getApplePayShippingMethods Array_sort shippingMethods
     <-> exists method,
           method ∈ default [] shippingMethods /\
           mapped = to_ApplePayShippingMethod method) /\
  getApplePayShippingMethods Array_sort None = [] /\
  getApplePayShippingMethods Array_sort (Some []) = [].
Proof.
  intros Hperm. unfold getApplePayShippingMethods.
  split; [|split; [|split]].
  - apply Forall_forall. intros mapped [method [-> _]]%list_elem_of_fmap.
    apply to_ApplePayShippingMethod_amount.
  - intros mapped. split.
    + intros (method & -> & Hin)%list_elem_of_fmap. exists method.
      split; [by rewrite <- (Hperm _ selected_first) | reflexivity].
    + intros (method & Hin & ->). apply list_elem_of_fmap. exists method.
      split; [reflexivity | by rewrite (Hperm _ selected_first)].
  - change (default [] (@None (list ShippingMethod.t)))
      with (@nil ShippingMethod.t).
    by rewrite (proj1 (Permutation_nil_r _) (Hperm _ selected_first [])).
  - change (default [] (Some (@nil ShippingMethod.t)))
      with (@nil ShippingMethod.t).
    by rewrite (proj1 (Permutation_nil_r _) (Hperm _ selected_first [])).
Qed.

Lemma getApplePayShippingMethods_members_witness :
  to_ApplePayShippingMethod pickup_method
  ∈ getApplePayShippingMethods insertion_sort_left
      (Some [standard_method; pickup_method]).
Proof.
  apply (getApplePayShippingMethods_members insertion_sort_left
           (Some [standard_method; pickup_method]) (@insertion_sort_left_perm)).
  exists pickup_method. split; [|reflexivity].
  apply list_elem_of_further, list_elem_of_here.
Defined.

(** X13. When the order of a request has a selected shipping method, the one
    whose type decides on the Shipping line, that method is marked selected
    in the order and its mapping is among the shipping methods of the
    request (given a sort that returns a permutation). *)
Theorem createApplePayRequest_selected_offered
  (Array_sort : forall A : Type, (A -> A -> Z) -> list A -> list A)
  (countryCode : string) (order : DetailedOrderInfo.t)
  (method : ShippingMethod.t) :
  (forall (A : Type) (comparefn : A -> A -> Z) (l : list A),
     Permutation (Array_sort A comparefn l) l) ->
  DetailedOrderInfo.declared order ->
  order_selectedMethod order = Some method ->
  exists request,
    createApplePayRequest Array_sort countryCode order = Normal request /\
    ShippingMethod.selected method = Some true /\
    method ∈ order_shippingMethods order /\
    to_ApplePayShippingMethod method
    ∈ ApplePayPaymentRequest.shippingMethods request.
Proof.
  intros Hperm Hd Hsel.
  destruct (createApplePayRequest_declared Array_sort countryCode order Hd)
    as (request & Hr & _ & _ & _ & _ & _ & _ & Hsm & _).
  exists request. split; [exact Hr|].
  apply find_some in Hsel as [Hin Htrue].
  apply list_elem_of_In in Hin.
  split; [|split; [exact Hin|]].
  - by destruct (ShippingMethod.selected method) as [[|]|].
  - rewrite Hsm. unfold getApplePayShippingMethods.
    apply list_elem_of_fmap.
    exists method. split; [reflexivity|].
    by rewrite (Hperm _ selected_first).
Qed.

Lemma createApplePayRequest_selected_offered_witness :
  exists request,
    createApplePayRequest insertion_sort "US" order_pickup = Normal request /\
    to_ApplePayShippingMethod pickup_method
    ∈ ApplePayPaymentRequest.shippingMethods request.
Proof.
  destruct (createApplePayRequest_selected_offered insertion_sort "US"
              order_pickup pickup_method (@insertion_sort_perm)
              (make_order_declared None None (USD "0.00") (USD "1.00")
                 (USD "10.00") (USD "11.00") None
                 (Some [standard_method; pickup_method]))
              eq_refl)
    as (request & Hr & _ & _ & Hin).
  exists request. split; [exact Hr | exact Hin].
Defined.

(** ** More on the shipping contact *)

(** X14. The shipping contact of a request is never the contact of empty
    strings that stands for no address: without an address, and with an
    address whose first name is missing or empty, it is the empty record,
    however complete the rest of the address is; with a first name it is the
    contact mapped from the address. *)
Theorem createApplePayRequest_shippingContact
  (Array_sort : forall A : Type, (A -> A -> Z) -> list A -> list A)
  (countryCode : string) (order : DetailedOrderInfo.t) :
  DetailedOrderInfo.declared order ->
  exists request,
    createApplePayRequest Array_sort countryCode order = Normal request /\
    ApplePayPaymentRequest.shippingContact request
    <> getShippingContactFromAddress None /\
    (order_shippingAddress order = None ->
     ApplePayPaymentRequest.shippingContact request
     = ApplePayPaymentContact.empty) /\
    (forall address,
       order_shippingAddress order = Some address ->
       ApplePayPaymentRequest.shippingContact request
       = if present (ShippingAddress.firstName address)
         then getShippingContactFromAddress (Some address)
         else ApplePayPaymentContact.empty).
Proof.
  intros Hd.
  destruct (createApplePayRequest_declared Array_sort countryCode order Hd)
    as (request & Hr & _ & _ & _ & _ & _ & Hc & _).
  exists request. split; [exact Hr|]. rewrite Hc. clear Hc Hr. cbv zeta.
  destruct (order_shippingAddress order)
    as [[firstName lastName line1 line2 city state postalCode country]|].
  - cbn [getShippingContactFromAddress ApplePayPaymentContact.givenName
         ShippingAddress.firstName].
    split; [|split; [discriminate|]].
    + destruct (truthy firstName); discriminate.
    + by intros address [= <-].
  - split; [discriminate|]. split; [reflexivity|discriminate].
Qed.

Lemma createApplePayRequest_shippingContact_witness :
  exists request,
    createApplePayRequest insertion_sort "US" order_tax_only = Normal request /\
    ApplePayPaymentRequest.shippingContact request
    = ApplePayPaymentContact.empty.
Proof.
  destruct (createApplePayRequest_shippingContact insertion_sort "US"
              order_tax_only
              (make_order_declared (Some true)
                 (Some ["VISA"; "Master_Card"; "unknown"])
                 (USD "0.00") (USD "5.00") (USD "0.00") (USD "5.00") None None))
    as (request & Hr & _ & Hnone & _).
  exists request. split; [exact Hr | by apply Hnone].
Defined.

(** X15. The mapping of an address to a contact loses nothing: two
    addresses, present or not, have the same contact only if they are the
    same; no address at all is told apart from every address by its empty
    list of address lines. *)
Theorem getShippingContactFromAddress_injective
  (address other : option ShippingAddress.t) :
  getShippingContactFromAddress address = getShippingContactFromAddress other
  <-> address = other.
Proof.
  split; [|by intros ->].
  destruct address as [[]|], other as [[]|];
    cbn [getShippingContactFromAddress]; intros H;
    first [reflexivity | discriminate H | injection H; congruence].
Qed.

(** ** More on the capabilities *)

(** X16. The capabilities start with supports3DS, supportsCredit and
    supportsDebit and at most supportsEMV follows; they depend on the
    networks only through whether chinaUnionPay is among them, so networks
    with the same members give the same capabilities, and more networks
    never take a capability away. *)
Theorem getMerchantCapabilities_monotone (networks more : list string) :
  (forall network, network ∈ networks -> network ∈ more) ->
  (exists added,
     getMerchantCapabilities (Some more)
     = getMerchantCapabilities (Some networks) ++ added) /\
  (exists rest,
     getMerchantCapabilities (Some networks)
     = ["supports3DS"; "supportsCredit"; "supportsDebit"] ++ rest /\
     (rest = [] \/ rest = ["supportsEMV"])) /\
  ((forall network, network ∈ more -> network ∈ networks) ->
   getMerchantCapabilities (Some more) = getMerchantCapabilities (Some networks)).
Proof.
  intros Hsub. unfold getMerchantCapabilities, includes.
  change (default [] (Some more)) with more.
  change (default [] (Some networks)) with networks.
  destruct (decide ("chinaUnionPay" ∈ networks)) as [Hn|Hn],
    (decide ("chinaUnionPay" ∈ more)) as [Hm|Hm];
    rewrite ?(bool_decide_eq_true_2 _ Hn), ?(bool_decide_eq_false_2 _ Hn),
      ?(bool_decide_eq_true_2 _ Hm), ?(bool_decide_eq_false_2 _ Hm).
  - split; [by exists []|]. split; [|reflexivity].
    exists ["supportsEMV"]. split; [reflexivity | by right].
  - exfalso. auto.
  - split; [by exists ["supportsEMV"]|]. split.
    + exists []. split; [reflexivity | by left].
    + intros Hsup. exfalso. auto.
  - split; [by exists []|]. split; [|reflexivity].
    exists []. split; [reflexivity | by left].
Qed.

Lemma getMerchantCapabilities_monotone_witness :
  exists added,
    getMerchantCapabilities (Some ["chinaUnionPay"; "visa"])
    = getMerchantCapabilities (Some ["visa"]) ++ added.
Proof.
  apply (getMerchantCapabilities_monotone ["visa"] ["chinaUnionPay"; "visa"]).
  intros network H. apply list_elem_of_further. exact H.
Defined.

(** ** More on [isJSON] *)

Lemma JSValue_nested_ind (P : JSValue -> Prop) :
  P JUndefined -> P JNull -> (forall b, P (JBoolean b)) ->
  (forall x, P (JNumber x)) -> (forall n, P (JBigInt n)) ->
  (forall s, P (JString s)) -> P JSymbol -> P JFunction ->
  (forall elements, Forall P elements -> P (JArray elements)) ->
  (forall properties,
     Forall (fun property => P (snd property)) properties ->
     P (JObject properties)) ->
  forall value, P value.
Proof.
  intros Hu Hnull Hb Hx Hn Hs Hsy Hf Harr Hobj.
  fix IH 1. intros [| |b|x|n|s| | |elements|properties].
  - exact Hu.
  - exact Hnull.
  - apply Hb.
  - apply Hx.
  - apply Hn.
  - apply Hs.
  - exact Hsy.
  - exact Hf.
  - apply Harr. induction elements as [|v elements IHe]; constructor;
      [apply IH | exact IHe].
  - apply Hobj. induction properties as [|[P0 v] properties IHp]; constructor;
      [apply IH | exact IHp].
Qed.

Lemma SerializeJSONProperty_array (elements : list JSValue) :
  SerializeJSONProperty (JArray elements)
  = (partial ← SerializeJSONArray elements; mret (Some (JSON_array partial))).
Proof.
  (* the loop inside [SerializeJSONProperty] is [SerializeJSONArray] itself *)
  reflexivity.
Qed.

Lemma SerializeJSONProperty_object (properties : list (string * JSValue)) :
  SerializeJSONProperty (JObject properties)
  = (partial ← SerializeJSONObject properties;
     mret (Some (JSON_object partial))).
Proof.
  reflexivity.
Qed.

(** Serializing throws exactly when there is a BigInt, and gives no text
    exactly for [undefined], a symbol or a function. *)
Lemma SerializeJSONProperty_spec (value : JSValue) :
  (has_BigInt value = true -> SerializeJSONProperty value = Throw TypeError) /\
  (has_BigInt value = false ->
   exists text,
     SerializeJSONProperty value = Normal text /\
     (text = None <-> no_JSON_text value = true)).
Proof.
  induction value as [| |b|x|n|s| | |elements IH|properties IH]
    using JSValue_nested_ind;
    try (split; [discriminate|]; intros _; eexists; split; [reflexivity|];
         split; (reflexivity || discriminate)).
  - split; [reflexivity | discriminate].
  - assert (Hloop :
      (existsb has_BigInt elements = true ->
       SerializeJSONArray elements = Throw TypeError) /\
      (existsb has_BigInt elements = false ->
       exists partial, SerializeJSONArray elements = Normal partial)).
    { induction IH as [|v elements [Hv1 Hv2] _ [IH1 IH2]].
      - split; [discriminate|]. intros _. by exists [].
      - cbn [existsb SerializeJSONArray]. destruct (has_BigInt v).
        + rewrite (Hv1 eq_refl). split; [reflexivity | discriminate].
        + destruct (Hv2 eq_refl) as (text & -> & _).
          cbn [orb mbind completion_bind]. split; intros E.
          * by rewrite (IH1 E).
          * destruct (IH2 E) as (partial & ->). by eexists. }
    rewrite SerializeJSONProperty_array. cbn [has_BigInt].
    destruct Hloop as [H1 H2]. split; intros E.
    + by rewrite (H1 E).
    + destruct (H2 E) as (partial & ->). eexists. split; [reflexivity|].
      split; discriminate.
  - assert (Hloop :
      (existsb (fun property => has_BigInt (snd property)) properties = true ->
       SerializeJSONObject properties = Throw TypeError) /\
      (existsb (fun property => has_BigInt (snd property)) properties = false ->
       exists partial, SerializeJSONObject properties = Normal partial)).
    { induction IH as [|[P v] properties [Hv1 Hv2] _ [IH1 IH2]].
      - split; [discriminate|]. intros _. by exists [].
      - cbn [existsb SerializeJSONObject snd] in *. destruct (has_BigInt v).
        + rewrite (Hv1 eq_refl). split; [reflexivity | discriminate].
        + destruct (Hv2 eq_refl) as (text & -> & _).
          cbn [orb mbind completion_bind]. split; intros E.
          * by rewrite (IH1 E).
          * destruct (IH2 E) as (partial & ->). by eexists. }
    rewrite SerializeJSONProperty_object. cbn [has_BigInt].
    destruct Hloop as [H1 H2]. split; intros E.
    + by rewrite (H1 E).
    + destruct (H2 E) as (partial & ->). eexists. split; [reflexivity|].
      split; discriminate.
Qed.

Lemma isJSON_answer (json : JSValue) :
  isJSON json = Normal (negb (has_BigInt json || no_JSON_text json)).
Proof.
  unfold isJSON, JSON_stringify, try_true_catch_false.
  destruct (SerializeJSONProperty_spec json) as [H1 H2].
  destruct (has_BigInt json).
  - by rewrite (H1 eq_refl).
  - destruct (H2 eq_refl) as (text & -> & Hiff).
    cbn [mbind completion_bind orb].
    destruct text as [j|], (no_JSON_text json); try reflexivity.
    + discriminate (proj2 Hiff eq_refl).
    + discriminate (proj1 Hiff eq_refl).
Qed.

(** X17. On a value given as a tree of primitives, arrays and plain objects,
    [isJSON] answers false exactly when the value is [undefined], a symbol
    or a function, or holds a BigInt as an element or as the value of a
    property at any depth, and true otherwise; [undefined], symbols and
    functions inside an array or an object do not make it false. *)
Theorem isJSON_characterized (json : JSValue) :
  (isJSON json = Normal false
   <-> no_JSON_text json = true \/ has_BigInt json = true) /\
  (isJSON json = Normal true
   <-> no_JSON_text json = false /\ has_BigInt json = false).
Proof.
  rewrite isJSON_answer.
  destruct (has_BigInt json), (no_JSON_text json); cbn;
    (split; split; intros H; first [discriminate H | reflexivity | tauto
                                   | by destruct H as [H|H]
                                   | by destruct H ]).
Qed.

Lemma JSON_nested_ind (P : JSON -> Prop) :
  P JSON_null -> (forall b, P (JSON_boolean b)) ->
  (forall x, P (JSON_number x)) -> (forall s, P (JSON_string s)) ->
  (forall elements, Forall P elements -> P (JSON_array elements)) ->
  (forall members,
     Forall (fun member => P (snd member)) members -> P (JSON_object members)) ->
  forall j, P j.
Proof.
  intros Hnull Hb Hx Hs Harr Hobj.
  fix IH 1. intros [|b|x|s|elements|members].
  - exact Hnull.
  - apply Hb.
  - apply Hx.
  - apply Hs.
  - apply Harr. induction elements as [|v elements IHe]; constructor;
      [apply IH | exact IHe].
  - apply Hobj. induction members as [|[P0 v] members IHm]; constructor;
      [apply IH | exact IHm].
Qed.

Lemma JSON_value_no_BigInt (j : JSON) : has_BigInt (JSON_value j) = false.
Proof.
  induction j as [|b|x|s|elements IH|members IH] using JSON_nested_ind;
    try reflexivity.
  - cbn [JSON_value has_BigInt].
    induction IH as [|v elements Hv _ IHe]; [reflexivity|].
    cbn [map existsb]. by rewrite Hv, IHe.
  - cbn [JSON_value has_BigInt].
    induction IH as [|[P v] members Hv _ IHm]; [reflexivity|].
    cbn [map existsb snd] in *. by rewrite Hv, IHm.
Qed.

(** X18. Whatever [JSON.parse] reads is JSON again: on the value of every
    JSON document [isJSON] answers true. *)
Theorem isJSON_of_parsed (j : JSON) :
  exists value,
    JSON_parse (Some j) = Normal value /\ isJSON value = Normal true.
Proof.
  exists (JSON_value j). split; [reflexivity|].
  rewrite isJSON_answer, JSON_value_no_BigInt.
  by destruct j.
Qed.

(** ** More on the Shipping line *)

Lemma elem_of_when {A : Type} (b : bool) (x y : A) :
  x ∈ when b y <-> b = true /\ x = y.
Proof.
  destruct b; cbn.
  - rewrite list_elem_of_singleton. intuition.
  - rewrite elem_of_nil. intuition discriminate.
Qed.

(** X19. In the request of an order of the declared type a Shipping line
    with a zero amount appears only when the first selected shipping method
    of the order has the type PICKUP; and when that method has the type
    PICKUP, a present shipping value always gives a Shipping line, zero or
    not. *)
Theorem createApplePayRequest_free_pickup
  (Array_sort : forall A : Type, (A -> A -> Z) -> list A -> list A)
  (countryCode : string) (order : DetailedOrderInfo.t) :
  DetailedOrderInfo.declared order ->
  exists request,
    createApplePayRequest Array_sort countryCode order = Normal request /\
    (forall amount : string,
       line "Shipping" (Some amount) ∈ ApplePayPaymentRequest.lineItems request ->
       isZeroAmount amount = true ->
       order_selectedMethod order ≫= ShippingMethod.type = Some "PICKUP") /\
    (order_selectedMethod order ≫= ShippingMethod.type = Some "PICKUP" ->
     present (order_amount Amounts.shippingAndHandling order) = true ->
     line "Shipping" (order_amount Amounts.shippingAndHandling order)
     ∈ ApplePayPaymentRequest.lineItems request).
Proof.
  intros Hd.
  destruct (createApplePayRequest_declared Array_sort countryCode order Hd)
    as (request & Hr & _ & _ & _ & _ & _ & _ & _ & Hl & _).
  exists request. split; [exact Hr|]. rewrite Hl. clear Hl Hr. cbv zeta.
  split.
  - intros amount Hin Hzero.
    rewrite !elem_of_app, !elem_of_when in Hin.
    destruct Hin as [[_ Heq]|[[_ Heq]|[Hcond Heq]]]; try discriminate Heq.
    injection Heq as Heq. rewrite <- Heq in Hcond.
    apply andb_prop in Hcond as [_ Hcond].
    cbn [nonzero] in Hcond. rewrite Hzero in Hcond. cbn [negb orb] in Hcond.
    by apply bool_decide_eq_true in Hcond.
  - intros Hpickup Hpresent.
    rewrite !elem_of_app, !elem_of_when. right. right.
    split; [|reflexivity].
    rewrite Hpresent, (bool_decide_eq_true_2 _ Hpickup).
    by rewrite orb_true_r.
Qed.

Lemma createApplePayRequest_free_pickup_witness :
  exists request,
    createApplePayRequest insertion_sort "US" order_pickup = Normal request /\
    line "Shipping" (Some "0.00") ∈ ApplePayPaymentRequest.lineItems request.
Proof.
  destruct (createApplePayRequest_free_pickup insertion_sort "US" order_pickup
              (make_order_declared None None (USD "0.00") (USD "1.00")
                 (USD "10.00") (USD "11.00") None
                 (Some [standard_method; pickup_method])))
    as (request & Hr & _ & Hin).
  exists request. split; [exact Hr|]. apply Hin; reflexivity.
Defined.
